(** * Trajectory generators of [imitation.policies.trainer]

    A shallow embedding of [src/imitation/policies/trainer.py]: the
    step-quota selector [_get_trajectories], the abstract
    [TrajectoryGenerator], the fixed-dataset generator [TrajectoryDataset]
    and the agent-driven generator [AgentTrainer], followed by the
    properties the specification states about them.

    Python integers are unbounded and are modelled by [Z]; [len] of a
    sequence is a natural number; the integers NumPy keeps in an array are
    64-bit and wrap around.  Exceptions are values of [exn]; a
    computation that may raise returns a [res].  Methods that touch the
    interpreter state run in the monad [M], which threads the state through
    raised exceptions as Python does (what was mutated before a [raise]
    stays mutated). *)

From stdpp Require Import gmap list strings pretty.
From Stdlib Require Import ZArith.

Local Open Scope Z_scope.

(** ** Exceptions and results *)

Inductive exn : Type :=
  | RuntimeError (msg : string)
  | ValueError (msg : string)
  | AssertionError
  | ExternalError (msg : string).

Inductive res (A : Type) : Type :=
  | Ok (a : A)
  | Raise (e : exn).
Arguments Ok {A} a.
Arguments Raise {A} e.

Global Instance res_ret : MRet res := λ A a, Ok a.
Global Instance res_bind : MBind res := λ A B f r,
  match r with
  | Ok a => f a
  | Raise e => Raise e
  end.

Definition is_ok {A} (r : res A) : bool :=
  match r with Ok _ => true | Raise _ => false end.

(** ** Python and NumPy primitives used by the module *)

(** [len(x)]: the [__len__] protocol. *)
Class Sized (T : Type) := py_len : T → nat.

(** [sum(xs)] over integers. *)
Definition py_sum (xs : list Z) : Z := foldr Z.add 0 xs.

(** NumPy holds the integers of an array in 64 bits, two's complement;
    arithmetic on them wraps around silently. *)
Definition int64_wrap (z : Z) : Z := (z + 2 ^ 63) `mod` 2 ^ 64 - 2 ^ 63.

(** [np.cumsum(xs)] on a list of Python integers: running totals, one per
    element, kept as 64-bit integers.  (The conversion of the list itself
    is exact for items below [2^63], which every [len] is.) *)
Fixpoint np_cumsum_from (acc : Z) (xs : list Z) : list Z :=
  match xs with
  | [] => []
  | x :: xs' =>
      let total := int64_wrap (acc + x) in
      total :: np_cumsum_from total xs'
  end.
Definition np_cumsum (xs : list Z) : list Z := np_cumsum_from 0 xs.

(** [entry >= steps] for a 64-bit entry of an array and a Python integer.
    The comparison is exact, except for a Python integer in [2^63, 2^64):
    NumPy before 1.25 takes such a number as an unsigned 64-bit integer and
    compares through [float64], later versions compare exactly.  That one
    case is left to the NumPy at hand. *)
Class NumPy := np_ge_uint64 : Z → Z → bool.

Definition np_ge `{!NumPy} (entry steps : Z) : bool :=
  if bool_decide (2 ^ 63 ≤ steps < 2 ^ 64)
  then np_ge_uint64 entry steps
  else bool_decide (steps ≤ entry).

(** [mask.argmax()] on a boolean array: the index of the first [True], [0]
    when every entry is [False], and a [ValueError] on an empty array. *)
Definition np_argmax (mask : list bool) : res nat :=
  match mask with
  | [] => Raise (ValueError "attempt to get argmax of an empty sequence")
  | _ :: _ => Ok (from_option fst 0%nat (list_find Is_true mask))
  end.

(** ** The step-quota selector *)

Section selector.
Context {Traj : Type} `{!Sized Traj, !NumPy}.

(** [len(traj)] as a Python integer. *)
Definition len (traj : Traj) : Z := Z.of_nat (py_len traj).

(** [sum(len(traj) for traj in trajectories)]. *)
Definition total_steps (trajectories : list Traj) : Z :=
  py_sum (len <$> trajectories).

Definition insufficient_msg (steps available_steps : Z) : string :=
  "Asked for " +:+ pretty steps +:+ " transitions but only "
    +:+ pretty available_steps +:+ " available".

(** The comparison mask [steps_cumsum >= steps]. *)
Definition quota_mask (trajectories : list Traj) (steps : Z) : list bool :=
  (λ entry, np_ge entry steps) <$> np_cumsum (len <$> trajectories).

Definition _get_trajectories (trajectories : list Traj) (steps : Z)
    : res (list Traj) :=
  let available_steps := total_steps trajectories in
  if bool_decide (available_steps < steps) then
    Raise (RuntimeError (insufficient_msg steps available_steps))
  else
    idx ← np_argmax (quota_mask trajectories steps);
    let trajectories := take (S idx) trajectories in
    if bool_decide (steps ≤ total_steps trajectories)
    then Ok trajectories
    else Raise AssertionError.
End selector.

(** A sequence is sized by its number of items. *)
Global Instance list_sized {A} : Sized (list A) := λ l, length l.

(** ** The interpreter monad

    A method is a function from the interpreter state to a result and the
    state it leaves behind; a raised exception keeps the state reached so
    far. *)

Definition M (S A : Type) : Type := S → res A * S.

Global Instance M_ret {S} : MRet (M S) := λ A a s, (Ok a, s).
Global Instance M_bind {S} : MBind (M S) := λ A B f m s,
  match m s with
  | (Ok a, s') => f a s'
  | (Raise e, s') => (Raise e, s')
  end.

Definition lift_res {S A} (r : res A) : M S A := λ s, (r, s).
Definition raise {S A} (e : exn) : M S A := lift_res (Raise e).
Definition gets {S A} (f : S → A) : M S A := λ s, (Ok (f s), s).

(** ** External collaborators

    Objects owned by other modules (the algorithm, loggers, reward
    callables, raw environments) are referred to by handle. *)

Definition handle := positive.
Definition HierarchicalLogger := handle.

(** [imit_logger.configure()]: the logger used when none is supplied. *)
Class Logging := configure : HierarchicalLogger.

(** [random.Random]: seeding and the permutation applied by [shuffle]. *)
Class PyRandom (Rng : Type) := {
  Random : Z → Rng;
  shuffled : ∀ {A}, Rng → list A → list A * Rng;
  shuffled_perm : ∀ A (g : Rng) (l : list A), (shuffled g l).1 ≡ₚ l
}.

(** [types.load(path)]: the persisted trajectory collection. *)
Class TrajStore (Path Traj : Type) := types_load : Path → res (list Traj).

(** The callable handed to [RewardVecEnvWrapper]: a reward function, or the
    bound method [predict] of a reward network. *)
Inductive reward_fn : Type :=
  | Callable (f : handle)
  | Predict (net : handle).

(** The [reward_fn] argument of [AgentTrainer]:
    [Union[RewardFn, RewardNet]]. *)
Inductive reward_arg : Type :=
  | IsRewardFn (f : reward_fn)
  | IsRewardNet (net : handle).

(** Vectorized environments and the wrappers built around them. *)
Inductive vec_env : Type :=
  | BaseVecEnv (e : handle)
  | BufferingWrapper (venv : vec_env)
  | RewardVecEnvWrapper (venv : vec_env) (reward_fn : reward_fn).

(** What [algorithm.get_env()] can hold. *)
Inductive env_value : Type :=
  | PyNone
  | PyObject (o : handle)
  | PyVecEnv (venv : vec_env).

(** [rollout.make_sample_until(min_timesteps, min_episodes)]. *)
Record sample_until := make_sample_until {
  min_timesteps : option Z;
  min_episodes : option Z
}.

(** The operations of the collaborators on their own state [Ext]. *)
Class Collaborators (Traj Kwargs Ext : Type) := {
  (* stable_baselines3 BaseAlgorithm *)
  get_env : handle → Ext → env_value;
  set_env : handle → vec_env → Ext → Ext;
  set_logger : handle → HierarchicalLogger → Ext → Ext;
  learn : handle → Z → Kwargs → Ext → res unit * Ext;
  (* imitation.data.wrappers.BufferingWrapper *)
  n_transitions : vec_env → Ext → Z;
  pop_trajectories : vec_env → Ext → list Traj * Ext;
  (* imitation.util.logger.HierarchicalLogger *)
  log : HierarchicalLogger → string → Ext → Ext;
  (* imitation.data.rollout *)
  generate_trajectories :
    handle → vec_env → sample_until → Ext → res (list Traj) * Ext;
  (* [set_logger] leaves the algorithm's environment alone *)
  get_env_set_logger : ∀ a a' l e, get_env a (set_logger a' l e) = get_env a e
}.

(** ** TrajectoryGenerator *)

Module TrajectoryGenerator.
Section base.
Context {S Kwargs : Type} `{!Logging}.

(** The base [logger] setter: [self._logger = value].  It yields the
    value stored in the [_logger] field. *)
Definition logger_fset (value : HierarchicalLogger)
    : M S HierarchicalLogger := mret value.

(** [__init__]: [self.logger = custom_logger or imit_logger.configure()],
    through the [logger] setter of the class being constructed. *)
Definition __init__ (fset : HierarchicalLogger → M S HierarchicalLogger)
    (custom_logger : option HierarchicalLogger) : M S HierarchicalLogger :=
  fset (from_option id configure custom_logger).

(** [train]: the body is the docstring only. *)
Definition train (steps : Z) (kwargs : Kwargs) : M S unit := mret ().
End base.
End TrajectoryGenerator.

(** ** TrajectoryDataset *)

Module TrajectoryDataset.
Section dataset.
Context {Traj Rng Path Kwargs : Type}.
Context `{!Sized Traj, !NumPy, !PyRandom Rng, !TrajStore Path Traj,
         !Logging}.

(** The mutable Python objects the class works on: lists of
    trajectories and [random.Random] generators, by reference. *)
Record world := World {
  lists : gmap handle (list Traj);
  rngs : gmap handle Rng
}.

Record t := Build {
  _logger : HierarchicalLogger;
  _trajectories : handle;
  rng : handle
}.

Definition dangling {A} : M world A :=
  raise (ExternalError "dangling reference").

Definition new_list (l : list Traj) : M world handle := λ w,
  let x := fresh (dom (lists w)) in
  (Ok x, World (<[x := l]> (lists w)) (rngs w)).

Definition read_list (x : handle) : M world (list Traj) := λ w,
  match lists w !! x with
  | Some l => (Ok l, w)
  | None => dangling w
  end.

(** [list(x)]: a new list with the items of [x]. *)
Definition py_list (x : handle) : M world handle :=
  l ← read_list x; new_list l.

(** [random.Random(seed)]. *)
Definition new_Random (seed : Z) : M world handle := λ w,
  let r := fresh (dom (rngs w)) in
  (Ok r, World (lists w) (<[r := Random seed]> (rngs w))).

(** [r.shuffle(x)]: permutes the list [x] in place and advances [r]. *)
Definition shuffle (r x : handle) : M world unit := λ w,
  match rngs w !! r, lists w !! x with
  | Some g, Some l =>
      let '(l', g') := shuffled g l in
      (Ok (), World (<[x := l']> (lists w)) (<[r := g']> (rngs w)))
  | _, _ => dangling w
  end.

Definition __init__ (path : Path) (seed : Z)
    (custom_logger : option HierarchicalLogger) : M world t :=
  _logger ← TrajectoryGenerator.__init__
              TrajectoryGenerator.logger_fset custom_logger;
  loaded ← lift_res (types_load path);
  _trajectories ← new_list loaded;
  rng ← new_Random seed;
  mret (Build _logger _trajectories rng).

Definition sample (self : t) (steps : Z) : M world (list Traj) :=
  (* make a copy before shuffling *)
  trajectories ← py_list (_trajectories self);
  shuffle (rng self) trajectories;;
  trajectories ← read_list trajectories;
  lift_res (_get_trajectories trajectories steps).

(** [train] is inherited from [TrajectoryGenerator]. *)
Definition train (self : t) (steps : Z) (kwargs : Kwargs) : M world unit :=
  TrajectoryGenerator.train steps kwargs.

(** A caller issuing one [sample] per requested step count, catching
    the exception of a failed call and going on. *)
Fixpoint samples (self : t) (requests : list Z)
    : M world (list (res (list Traj))) :=
  match requests with
  | [] => mret []
  | steps :: requests' => λ w,
      let '(r, w') := sample self steps w in
      (rs ← samples self requests'; mret (r :: rs)) w'
  end.
End dataset.
Arguments world : clear implicits.
End TrajectoryDataset.

(** ** AgentTrainer *)

Module AgentTrainer.
Section agent.
Context {Traj Kwargs Ext : Type}.
Context `{!Sized Traj, !NumPy, C : !Collaborators Traj Kwargs Ext,
         !Logging}.

(** Calls made on the collaborators, in order. *)
Inductive call : Type :=
  | CallSetLogger (algorithm : handle) (l : HierarchicalLogger)
  | CallGetEnv (algorithm : handle)
  | CallSetEnv (algorithm : handle) (venv : vec_env)
  | CallLearn (algorithm : handle) (total_timesteps : Z) (kwargs : Kwargs)
  | CallPopTrajectories (buffering_wrapper : vec_env)
  | CallLog (l : HierarchicalLogger) (msg : string)
  | CallGenerateTrajectories
      (algorithm : handle) (venv : vec_env) (until : sample_until).

Record world := World {
  ext : Ext;
  calls : list call
}.

Record t := Build {
  algorithm : handle;
  _logger : HierarchicalLogger;
  reward_fn : reward_fn;
  buffering_wrapper : vec_env;
  venv : vec_env
}.

(** Perform a call on the collaborators and record it. *)
Definition invoke {A} (c : call) (f : Ext → res A * Ext) : M world A :=
  λ w, let '(r, e) := f (ext w) in (r, World e (calls w ++ [c])).

Definition total {A} (f : Ext → A * Ext) : Ext → res A * Ext :=
  λ e, let '(a, e') := f e in (Ok a, e').
Definition effect (f : Ext → Ext) : Ext → res unit * Ext :=
  λ e, (Ok (), f e).
Definition query {A} (f : Ext → A) : Ext → res A * Ext :=
  λ e, (Ok (f e), e).

(** The [logger] property. *)
Definition logger (self : t) : HierarchicalLogger := _logger self.

(** The overriding [logger] setter:
    [self._logger = value; self.algorithm.set_logger(self.logger)].
    It reads no field but [algorithm], which [__init__] assigns before
    the setter first runs; it yields the value stored in [_logger]. *)
Definition logger_fset (algorithm : handle) (value : HierarchicalLogger)
    : M world HierarchicalLogger :=
  let _logger := value in
  invoke (CallSetLogger algorithm _logger)
         (effect (set_logger algorithm _logger));;
  mret _logger.

(** [self.logger = value] on a constructed instance. *)
Definition logger_setter (self : t) (value : HierarchicalLogger) : M world t :=
  _logger ← logger_fset (algorithm self) value;
  mret (Build (algorithm self) _logger (reward_fn self)
              (buffering_wrapper self) (venv self)).

Definition env_not_set_msg : string :=
  "The environment for the agent algorithm must be set.".

Definition __init__ (algorithm : handle) (reward_fn : reward_arg)
    (custom_logger : option HierarchicalLogger) : M world t :=
  _logger ← TrajectoryGenerator.__init__ (logger_fset algorithm)
              custom_logger;
  let reward_fn :=
    match reward_fn with
    | IsRewardNet net => Predict net
    | IsRewardFn f => f
    end in
  venv ← invoke (CallGetEnv algorithm) (query (get_env algorithm));
  match venv with
  | PyVecEnv venv =>
      let buffering_wrapper := BufferingWrapper venv in
      let venv := RewardVecEnvWrapper buffering_wrapper reward_fn in
      invoke (CallSetEnv algorithm venv) (effect (set_env algorithm venv));;
      mret (Build algorithm _logger reward_fn buffering_wrapper venv)
  | _ => raise (ValueError env_not_set_msg)
  end.

Definition leftover_msg (n_transitions : Z) : string :=
  "There are " +:+ pretty n_transitions
    +:+ " transitions left in the buffer. "
    +:+ "Call AgentTrainer.sample() first to clear them.".

Definition train (self : t) (steps : Z) (kwargs : Kwargs) : M world unit :=
  n_transitions ← gets (λ w, n_transitions (buffering_wrapper self) (ext w));
  if bool_decide (n_transitions ≠ 0) then
    raise (RuntimeError (leftover_msg n_transitions))
  else
    invoke (CallLearn (algorithm self) steps kwargs)
           (learn (algorithm self) steps kwargs).

Definition _pop_trajectories (self : t) : M world (list Traj) :=
  invoke (CallPopTrajectories (buffering_wrapper self))
         (total (pop_trajectories (buffering_wrapper self))).

Definition topup_msg (steps avail_steps : Z) : string :=
  "Requested " +:+ pretty steps +:+ " transitions but only "
    +:+ pretty avail_steps +:+ " in buffer. "
    +:+ "Sampling " +:+ pretty (steps - avail_steps)
    +:+ " additional transitions.".

Definition sample (self : t) (steps : Z) : M world (list Traj) :=
  trajectories ← _pop_trajectories self;
  let trajectories := reverse trajectories in
  let avail_steps := total_steps trajectories in
  if bool_decide (avail_steps < steps) then
    invoke (CallLog (logger self) (topup_msg steps avail_steps))
           (effect (log (logger self) (topup_msg steps avail_steps)));;
    let sample_until :=
      make_sample_until (Some (steps - avail_steps)) None in
    (* the trajectories returned here are not used *)
    _ ← invoke
          (CallGenerateTrajectories (algorithm self) (venv self) sample_until)
          (generate_trajectories (algorithm self) (venv self) sample_until);
    additional_trajectories ← _pop_trajectories self;
    lift_res (_get_trajectories
                (trajectories ++ additional_trajectories) steps)
  else
    lift_res (_get_trajectories trajectories steps).
End agent.
Arguments world : clear implicits.
Arguments call : clear implicits.
End AgentTrainer.

(** ** Reference behaviours and concrete collaborators *)

Section reference.
Context {Traj Rng Path Kwargs Ext : Type}.
Context `{!Sized Traj, !NumPy, !PyRandom Rng, !TrajStore Path Traj,
         !Logging}.

(** The results a dataset generator gives for a series of requests, told
    without the heap: each request shuffles the loaded collection with the
    generator left by the previous one. *)
Fixpoint shuffle_stream (g : Rng) (data : list Traj) (requests : list Z)
    : list (res (list Traj)) :=
  match requests with
  | [] => []
  | steps :: requests' =>
      let '(l, g') := shuffled g data in
      _get_trajectories l steps :: shuffle_stream g' data requests'
  end.

(** Construct a dataset generator and serve the requests with it. *)
Definition fresh_samples (path : Path) (seed : Z)
    (custom_logger : option HierarchicalLogger) (requests : list Z)
    : M (TrajectoryDataset.world Traj Rng) (list (res (list Traj))) :=
  self ← TrajectoryDataset.__init__ path seed custom_logger;
  TrajectoryDataset.samples self requests.

(** The same collaborators, except that the rollout utility hands back
    [f out] where it handed back [out]. *)
Definition with_rollout_output (C : Collaborators Traj Kwargs Ext)
    (f : list Traj → list Traj) : Collaborators Traj Kwargs Ext :=
  {| get_env := get_env;
     set_env := set_env;
     set_logger := set_logger;
     learn := learn;
     n_transitions := n_transitions;
     pop_trajectories := pop_trajectories;
     log := log;
     generate_trajectories a v u e :=
       match generate_trajectories a v u e with
       | (Ok out, e') => (Ok (f out), e')
       | (Raise err, e') => (Raise err, e')
       end;
     get_env_set_logger := get_env_set_logger |}.
End reference.

(** ** Histories of an agent generator *)

Section histories.
Context {Traj Kwargs Ext : Type}.
Context `{!Sized Traj, !NumPy, C : !Collaborators Traj Kwargs Ext,
         !Logging}.

(** What a user does with a constructed agent generator. *)
Inductive agent_op : Type :=
  | OpTrain (steps : Z) (kwargs : Kwargs)
  | OpSample (steps : Z)
  | OpSetLogger (value : HierarchicalLogger).

(** One operation.  The caller catches whatever it raises and goes on with
    the instance and the state the operation left. *)
Definition agent_step (self : AgentTrainer.t) (o : agent_op)
    (w : AgentTrainer.world Kwargs Ext)
    : AgentTrainer.t * AgentTrainer.world Kwargs Ext :=
  match o with
  | OpTrain steps kwargs => (self, (AgentTrainer.train self steps kwargs w).2)
  | OpSample steps => (self, (AgentTrainer.sample self steps w).2)
  | OpSetLogger value =>
      match AgentTrainer.logger_setter self value w with
      | (Ok self', w') => (self', w')
      | (Raise _, w') => (self, w')
      end
  end.

Fixpoint agent_run (self : AgentTrainer.t) (ops : list agent_op)
    (w : AgentTrainer.world Kwargs Ext)
    : AgentTrainer.t * AgentTrainer.world Kwargs Ext :=
  match ops with
  | [] => (self, w)
  | o :: ops' =>
      let '(self', w') := agent_step self o w in agent_run self' ops' w'
  end.

(** The loggers handed to [algorithm] through [set_logger], in order. *)
Definition set_logger_calls (algorithm : handle)
    (cs : list (AgentTrainer.call Kwargs)) : list HierarchicalLogger :=
  omap (λ c, match c with
             | AgentTrainer.CallSetLogger a l =>
                 if decide (a = algorithm) then Some l else None
             | _ => None
             end) cs.

(** The environments handed to algorithms through [set_env], in order. *)
Definition set_env_calls (cs : list (AgentTrainer.call Kwargs))
    : list (handle * vec_env) :=
  omap (λ c, match c with
             | AgentTrainer.CallSetEnv a v => Some (a, v)
             | _ => None
             end) cs.

(** The calls [sample] may make on behalf of [self]: drains of its own
    buffering wrapper, log lines on its own logger, and rollouts of its own
    algorithm in its own wrapped environment, bounded below by a positive
    number of timesteps and by no number of episodes. *)
Definition sample_call (self : AgentTrainer.t) (c : AgentTrainer.call Kwargs)
    : Prop :=
  match c with
  | AgentTrainer.CallPopTrajectories bw =>
      bw = AgentTrainer.buffering_wrapper self
  | AgentTrainer.CallLog l _ => l = AgentTrainer._logger self
  | AgentTrainer.CallGenerateTrajectories a v until =>
      a = AgentTrainer.algorithm self ∧ v = AgentTrainer.venv self ∧
      min_episodes until = None ∧
      ∃ n, min_timesteps until = Some n ∧ 0 < n
  | _ => False
  end.

(** What a history keeps between the instance, the instance [self0] it
    started from and the record of calls, [cs0] being the record at the
    start. *)
Definition in_step (self0 : AgentTrainer.t)
    (cs0 : list (AgentTrainer.call Kwargs)) (self : AgentTrainer.t)
    (w : AgentTrainer.world Kwargs Ext) : Prop :=
  AgentTrainer.algorithm self = AgentTrainer.algorithm self0 ∧
  AgentTrainer.reward_fn self = AgentTrainer.reward_fn self0 ∧
  AgentTrainer.buffering_wrapper self = AgentTrainer.buffering_wrapper self0 ∧
  AgentTrainer.venv self = AgentTrainer.venv self0 ∧
  last (set_logger_calls (AgentTrainer.algorithm self0) (AgentTrainer.calls w))
  = Some (AgentTrainer._logger self) ∧
  set_env_calls (AgentTrainer.calls w) = set_env_calls cs0.
End histories.
Arguments agent_op : clear implicits.

(** ** The data loader of [tests/test_bc.py] that stops yielding *)

Module DataLoaderFailsOnSecondIter.
Section loader.
Context {Batch : Type}.

Record t := Build {
  iter_count : Z;
  dummy_yield_value : Batch;
  no_yield_after_iter : Z
}.

Definition __init__ (dummy_yield_value : Batch) (no_yield_after_iter : Z) : t :=
  Build 0 dummy_yield_value no_yield_after_iter.

(** Where a generator made by [__iter__] stands: not yet started,
    suspended at its [yield], or finished. *)
Inductive frame : Type := Start | AtYield | Finished.

Definition count_up (self : t) : t :=
  Build (iter_count self + 1) (dummy_yield_value self)
        (no_yield_after_iter self).

(** [next(g)]: run the body of [__iter__] up to the next [yield] or to its
    end ([None] stands for [StopIteration]). *)
Definition next (g : frame) (self : t) : option Batch * frame * t :=
  match g with
  | Start =>
      if bool_decide (iter_count self < no_yield_after_iter self)
      then (Some (dummy_yield_value self), AtYield, self)
      else (None, Finished, count_up self)
  | AtYield => (None, Finished, count_up self)
  | Finished => (None, Finished, self)
  end.

(** [for batch in g]: take batches until the generator stops, at most
    [fuel] of them. *)
Fixpoint consume (fuel : nat) (g : frame) (self : t) : list Batch * t :=
  match fuel with
  | O => ([], self)
  | S fuel' =>
      match next g self with
      | (Some batch, g', self') =>
          let '(batches, self'') := consume fuel' g' self' in
          (batch :: batches, self'')
      | (None, _, self') => ([], self')
      end
  end.

(** [list(loader)]: a new generator, run to its end. *)
Definition for_loop (fuel : nat) (self : t) : list Batch * t :=
  consume fuel Start self.

(** [n] loops over the loader, one after the other. *)
Fixpoint passes (fuel n : nat) (self : t) : list (list Batch) * t :=
  match n with
  | O => ([], self)
  | S n' =>
      let '(batches, self') := for_loop fuel self in
      let '(rest, self'') := passes fuel n' self' in
      (batches :: rest, self'')
  end.
End loader.
Arguments t : clear implicits.
End DataLoaderFailsOnSecondIter.

(** A small concrete world: a trajectory is the list of its rewards, the
    environment pays reward [1] per step and the reward model pays [0]. *)
Module Toy.
Definition traj : Type := list Z.

(** A NumPy that compares exactly throughout. *)
Global Instance numpy : NumPy := λ entry steps, bool_decide (steps ≤ entry).

(** A trajectory given by its number of steps alone, for lengths no list
    written out could have. *)
Definition span : Type := N.
Global Instance span_sized : Sized span := N.to_nat.

Record ext := Ext {
  agent_env : env_value;
  agent_logger : HierarchicalLogger;
  buffer : list traj;
  log_lines : list string
}.

Definition episode (n : Z) (reward : Z) : traj := replicate (Z.to_nat n) reward.

Global Instance collaborators : Collaborators traj (list string) ext := {|
  get_env _ e := agent_env e;
  set_env _ venv e := Ext (PyVecEnv venv) (agent_logger e) (buffer e) (log_lines e);
  set_logger _ l e := Ext (agent_env e) l (buffer e) (log_lines e);
  learn _ total_timesteps _ e :=
    (Ok (), Ext (agent_env e) (agent_logger e)
                (buffer e ++ [episode total_timesteps 1]) (log_lines e));
  n_transitions _ e := total_steps (buffer e);
  pop_trajectories _ e :=
    (buffer e, Ext (agent_env e) (agent_logger e) [] (log_lines e));
  log _ msg e := Ext (agent_env e) (agent_logger e) (buffer e) (log_lines e ++ [msg]);
  generate_trajectories _ _ until e :=
    let n := default 0 (min_timesteps until) in
    (Ok [episode n 0],
     Ext (agent_env e) (agent_logger e) (buffer e ++ [episode n 1]) (log_lines e));
  get_env_set_logger _ _ _ _ := eq_refl
|}.

Global Instance logging : Logging := 1%positive.

(** A generator that alternates between reversing the list and leaving it
    as it is. *)
Global Instance random : PyRandom nat := {|
  Random seed := Z.to_nat seed;
  shuffled A g l := (if Nat.even g then l else reverse l, S g);
  shuffled_perm A g l :=
    if Nat.even g as b return (if b then l else reverse l) ≡ₚ l
    then reflexivity l else reverse_Permutation l
|}.

Definition stored : list traj := [episode 4 1; episode 5 1; episode 2 1].

Global Instance store : TrajStore string traj := λ path, Ok stored.

Definition empty_heap : TrajectoryDataset.world traj nat :=
  TrajectoryDataset.World ∅ ∅.

(** A dataset generator whose collection and generator object both live at
    address [1]. *)
Definition dataset : TrajectoryDataset.t :=
  TrajectoryDataset.Build 1%positive 1%positive 1%positive.

Definition dataset_heap : TrajectoryDataset.world traj nat :=
  TrajectoryDataset.World {[1%positive := stored]} {[1%positive := 0%nat]}.

(** The same with the generator in a state that reverses the list. *)
Definition dataset_heap_odd : TrajectoryDataset.world traj nat :=
  TrajectoryDataset.World {[1%positive := stored]} {[1%positive := 1%nat]}.

(** An agent whose environment was never set. *)
Definition unset_agent : AgentTrainer.world (list string) ext :=
  AgentTrainer.World (Ext PyNone 5%positive [] []) [].

(** A constructed agent generator over the raw environment [3]. *)
Definition trainer : AgentTrainer.t :=
  AgentTrainer.Build 2%positive 1%positive (Callable 4%positive)
    (BufferingWrapper (BaseVecEnv 3%positive))
    (RewardVecEnvWrapper (BufferingWrapper (BaseVecEnv 3%positive))
                         (Callable 4%positive)).

Definition with_buffer (b : list traj) : AgentTrainer.world (list string) ext :=
  AgentTrainer.World (Ext (PyVecEnv (AgentTrainer.venv trainer)) 1%positive b []) [].

(** A second dataset generator over the same collection, with a generator
    object of its own at address [2]. *)
Definition dataset2 : TrajectoryDataset.t :=
  TrajectoryDataset.Build 1%positive 1%positive 2%positive.

Definition shared_heap : TrajectoryDataset.world traj nat :=
  TrajectoryDataset.World {[1%positive := stored]}
    {[1%positive := 1%nat; 2%positive := 3%nat]}.

(** The same collaborators with a rollout that completes no trajectory. *)
Definition stalled : Collaborators traj (list string) ext := {|
  get_env := get_env;
  set_env := set_env;
  set_logger := set_logger;
  learn := learn;
  n_transitions := n_transitions;
  pop_trajectories := pop_trajectories;
  log := log;
  generate_trajectories _ _ _ e := (Ok [], e);
  get_env_set_logger := get_env_set_logger
|}.

(** An agent whose environment is the raw vectorized environment [3]. *)
Definition ready_agent : AgentTrainer.world (list string) ext :=
  AgentTrainer.World (Ext (PyVecEnv (BaseVecEnv 3%positive)) 5%positive [] []) [].
End Toy.

(** ** The step-quota selector: facts about the primitives *)

Section selector_facts.
Context {Traj : Type} `{!Sized Traj, !NumPy}.
Implicit Types (l r p : list Traj) (steps : Z).

Lemma py_sum_app (xs ys : list Z) : py_sum (xs ++ ys) = py_sum xs + py_sum ys.
Proof. induction xs as [|x xs IH]; simpl; lia. Qed.

Lemma total_steps_app l1 l2 :
  total_steps (l1 ++ l2) = total_steps l1 + total_steps l2.
Proof. unfold total_steps. by rewrite fmap_app, py_sum_app. Qed.

Lemma total_steps_nonneg l : 0 ≤ total_steps l.
Proof.
  unfold total_steps. induction l as [|t l IH]; csimpl; [done|].
  unfold len at 1. lia.
Qed.

Lemma total_steps_reverse l : total_steps (reverse l) = total_steps l.
Proof.
  induction l as [|t l IH]; [done|].
  rewrite reverse_cons, total_steps_app, IH. unfold total_steps; csimpl. lia.
Qed.

Lemma total_steps_prefix l1 l2 :
  l1 `prefix_of` l2 → total_steps l1 ≤ total_steps l2.
Proof.
  intros [k ->]. rewrite total_steps_app.
  pose proof (total_steps_nonneg k). lia.
Qed.

Lemma len_nonneg (t : Traj) : 0 ≤ len t.
Proof. unfold len. lia. Qed.

Lemma total_steps_cons (t : Traj) l : total_steps (t :: l) = len t + total_steps l.
Proof. done. Qed.

(** In range, a 64-bit integer is the number it stands for. *)
Lemma int64_wrap_small (z : Z) : - 2 ^ 63 ≤ z < 2 ^ 63 → int64_wrap z = z.
Proof. intros Hz. unfold int64_wrap. rewrite Z.mod_small; lia. Qed.

Lemma length_np_cumsum_from acc xs :
  length (np_cumsum_from acc xs) = length xs.
Proof. revert acc. induction xs as [|x xs IH]; intros acc; simpl; auto. Qed.

(** The running totals of a list go on from those of its front part. *)
Lemma np_cumsum_from_app acc xs ys :
  ∃ acc', np_cumsum_from acc (xs ++ ys)
          = np_cumsum_from acc xs ++ np_cumsum_from acc' ys.
Proof.
  revert acc. induction xs as [|x xs IH]; intros acc; simpl.
  - by exists acc.
  - destruct (IH (int64_wrap (acc + x))) as [acc' ->]. by exists acc'.
Qed.

(** As long as nothing wraps, entry [i] of the running totals is the sum of
    the first [i+1] items. *)
Lemma np_cumsum_from_lookup xs acc i :
  0 ≤ acc → Forall (Z.le 0) xs → acc + py_sum xs < 2 ^ 63 →
  (i < length xs)%nat →
  np_cumsum_from acc xs !! i = Some (acc + py_sum (take (S i) xs)).
Proof.
  intros Hacc Hxs. revert acc i Hacc.
  induction Hxs as [|x xs Hx Hxs IH]; intros acc i Hacc Hsum Hi;
    simpl in *; [lia|].
  assert (0 ≤ py_sum xs) as Hnn.
  { clear -Hxs. induction Hxs; simpl; lia. }
  rewrite int64_wrap_small by lia.
  destruct i as [|i]; simpl.
  - f_equal. lia.
  - rewrite IH by lia. f_equal. simpl. lia.
Qed.

Lemma steps_cumsum_lookup l i :
  total_steps l < 2 ^ 63 → (i < length l)%nat →
  np_cumsum (len <$> l) !! i = Some (total_steps (take (S i) l)).
Proof.
  intros Hbound Hi. unfold np_cumsum.
  rewrite np_cumsum_from_lookup.
  - unfold total_steps. by rewrite fmap_take.
  - done.
  - apply Forall_fmap, Forall_forall. intros t _. apply len_nonneg.
  - done.
  - by rewrite length_fmap.
Qed.

Lemma quota_mask_length l steps : length (quota_mask l steps) = length l.
Proof.
  unfold quota_mask, np_cumsum.
  by rewrite length_fmap, length_np_cumsum_from, length_fmap.
Qed.

(** The mask of a list goes on from the mask of its front part. *)
Lemma quota_mask_app l k steps :
  ∃ more, quota_mask (l ++ k) steps = quota_mask l steps ++ more.
Proof.
  unfold quota_mask, np_cumsum. rewrite fmap_app.
  destruct (np_cumsum_from_app 0 (len <$> l) (len <$> k)) as [acc' ->].
  rewrite fmap_app. by eexists.
Qed.

Lemma quota_mask_take l steps (n : nat) :
  quota_mask (take n l) steps = take n (quota_mask l steps).
Proof.
  destruct (decide (n ≤ length l)%nat) as [Hn|Hn].
  - destruct (quota_mask_app (take n l) (drop n l) steps) as [more Hmore].
    rewrite take_drop in Hmore. rewrite Hmore.
    rewrite take_app_length'; [done|].
    rewrite quota_mask_length, length_take. lia.
  - rewrite !take_ge; [done| |lia]. rewrite quota_mask_length. lia.
Qed.

(** The first entry is exact when the first length is a 64-bit number and
    [steps] is not in the range left to the NumPy at hand. *)
Lemma quota_mask_head (t : Traj) l steps :
  len t < 2 ^ 63 → ¬ (2 ^ 63 ≤ steps < 2 ^ 64) →
  quota_mask (t :: l) steps !! 0%nat = Some (bool_decide (steps ≤ len t)).
Proof.
  intros Hlen Hsteps. unfold quota_mask, np_cumsum, np_ge. csimpl.
  pose proof (len_nonneg t).
  rewrite int64_wrap_small by lia.
  by rewrite bool_decide_eq_false_2.
Qed.

(** As long as the total is a 64-bit number, the mask is what exact
    running totals would give. *)
Lemma quota_mask_lookup l steps i :
  total_steps l < 2 ^ 63 → steps < 2 ^ 63 → (i < length l)%nat →
  quota_mask l steps !! i
  = Some (bool_decide (steps ≤ total_steps (take (S i) l))).
Proof.
  intros Hbound Hsteps Hi. unfold quota_mask.
  rewrite list_lookup_fmap, steps_cumsum_lookup by done. simpl.
  unfold np_ge. by rewrite bool_decide_eq_false_2 by lia.
Qed.

(** With enough steps available and a total that fits 64 bits, the mask
    has a [True] entry, and [argmax] returns the least index whose running
    total reaches [steps]. *)
Lemma np_argmax_quota l steps :
  total_steps l < 2 ^ 63 →
  l ≠ [] → steps ≤ total_steps l →
  ∃ idx : nat,
    np_argmax (quota_mask l steps) = Ok idx ∧ (idx < length l)%nat ∧
    steps ≤ total_steps (take (S idx) l) ∧
    ∀ j : nat, (j < idx)%nat → total_steps (take (S j) l) < steps.
Proof.
  intros Hbound Hne Hle.
  assert (0 < length l)%nat as Hlen by (destruct l; [done|simpl; lia]).
  assert (is_Some (list_find Is_true (quota_mask l steps))) as [[i b] Hfind].
  { apply list_find_elem_of with true; [|done].
    apply list_elem_of_lookup. exists (length l - 1)%nat.
    rewrite quota_mask_lookup by lia.
    replace (S (length l - 1)) with (length l) by lia.
    rewrite take_ge by done. by rewrite bool_decide_eq_true_2. }
  pose proof Hfind as (Hi & Hb & Hmin)%list_find_Some.
  assert (i < length l)%nat as Hil.
  { apply lookup_lt_Some in Hi. by rewrite quota_mask_length in Hi. }
  exists i. split_and!.
  - unfold np_argmax. destruct (quota_mask l steps) eqn:Hm; [done|].
    by rewrite Hfind.
  - done.
  - rewrite quota_mask_lookup in Hi by lia. simplify_eq.
    by apply bool_decide_unpack in Hb.
  - intros j Hj.
    destruct (decide (total_steps (take (S j) l) < steps)) as [|Hn]; [done|].
    exfalso. eapply (Hmin j); [|done|].
    + by apply quota_mask_lookup; lia.
    + apply bool_decide_pack. lia.
Qed.

(** The selector on a non-empty input with enough steps and a total that
    fits 64 bits: it returns the prefix through the least index reaching the
    quota, and the final assertion holds. *)
Lemma get_trajectories_ok l steps :
  total_steps l < 2 ^ 63 →
  l ≠ [] → steps ≤ total_steps l →
  ∃ idx : nat,
    _get_trajectories l steps = Ok (take (S idx) l) ∧ (idx < length l)%nat ∧
    steps ≤ total_steps (take (S idx) l) ∧
    ∀ j : nat, (j < idx)%nat → total_steps (take (S j) l) < steps.
Proof.
  intros Hbound Hne Hle.
  destruct (np_argmax_quota l steps Hbound Hne Hle)
    as (idx & Harg & Hlt & Hge & Hmin).
  exists idx. split_and!; try done.
  unfold _get_trajectories.
  rewrite bool_decide_eq_false_2 by lia.
  rewrite Harg. simpl.
  by rewrite bool_decide_eq_true_2.
Qed.

(** Insufficient steps: the guard raises before anything else runs. *)
Lemma get_trajectories_insufficient l steps :
  total_steps l < steps →
  _get_trajectories l steps
  = Raise (RuntimeError (insufficient_msg steps (total_steps l))).
Proof.
  intros Hlt. unfold _get_trajectories. by rewrite bool_decide_eq_true_2.
Qed.

(** Whatever the selector returns is a prefix of its input that meets the
    quota. *)
Lemma get_trajectories_sound l steps r :
  _get_trajectories l steps = Ok r →
  r `prefix_of` l ∧ steps ≤ total_steps r.
Proof.
  unfold _get_trajectories. case_bool_decide; [done|].
  destruct (np_argmax _) as [idx|e]; simpl; [|done].
  case_bool_decide; [|done]. intros [= <-]. split; [apply prefix_take|done].
Qed.

(** On an empty input the guard passes exactly when [steps ≤ 0], and then
    [argmax] raises. *)
Lemma get_trajectories_nil steps :
  steps ≤ 0 →
  _get_trajectories ([] : list Traj) steps
  = Raise (ValueError "attempt to get argmax of an empty sequence").
Proof.
  intros Hle. unfold _get_trajectories.
  rewrite bool_decide_eq_false_2; [done|]. unfold total_steps; simpl. lia.
Qed.

Lemma np_argmax_Ok (mask : list bool) (idx : nat) :
  np_argmax mask = Ok idx →
  from_option fst 0%nat (list_find Is_true mask) = idx.
Proof. destruct mask as [|b m]; [done|]. by intros [= <-]. Qed.

(** What a returned result looks like, whatever the running totals were: a
    non-empty front part of the input, cut at the index [argmax] gave, that
    passed the guard and the closing check. *)
Lemma get_trajectories_shape l steps r :
  _get_trajectories l steps = Ok r →
  ∃ idx : nat,
    r = take (S idx) l ∧ l ≠ [] ∧
    np_argmax (quota_mask l steps) = Ok idx ∧
    steps ≤ total_steps r ∧ steps ≤ total_steps l.
Proof.
  unfold _get_trajectories. case_bool_decide as Hguard; [done|].
  destruct (np_argmax _) as [idx|e] eqn:Harg; simpl; [|done].
  case_bool_decide; [|done]. intros [= <-].
  exists idx. split_and!; [done| |done|done|lia].
  intros ->. by vm_compute in Harg.
Qed.

(** When the first length is a 64-bit number, the index of a returned
    result is that of a [True] entry of the mask, the first one. *)
Lemma get_trajectories_first_true l steps r :
  Forall (λ t, len t < 2 ^ 63) l →
  _get_trajectories l steps = Ok r →
  ∃ idx : nat,
    r = take (S idx) l ∧
    list_find Is_true (quota_mask l steps) = Some (idx, true) ∧
    steps ≤ total_steps r ∧ steps ≤ total_steps l.
Proof.
  intros Hlens (idx & -> & Hne & Harg & Hge & Hle)%get_trajectories_shape.
  exists idx. split_and!; [done| |done|done].
  destruct l as [|t l]; [done|]. apply Forall_cons in Hlens as [Hlen _].
  apply np_argmax_Ok in Harg.
  destruct (list_find Is_true (quota_mask (t :: l) steps))
    as [[i b']|] eqn:Hfind; simpl in Harg.
  - subst i. pose proof Hfind as (_ & Hb & _)%list_find_Some.
    destruct b'; [done|]. by destruct Hb.
  - exfalso. subst idx.
    rewrite firstn_cons, take_0, total_steps_cons in Hge.
    change (total_steps []) with 0 in Hge.
    assert (¬ (2 ^ 63 ≤ steps < 2 ^ 64)) as Hrange by lia.
    pose proof (quota_mask_head t l steps Hlen Hrange) as Hhead.
    rewrite bool_decide_eq_true_2 in Hhead by lia.
    apply list_find_None in Hfind.
    by apply (Forall_lookup_1 _ _ _ _ Hfind) in Hhead.
Qed.

(** Conversely, the first [True] entry of the mask gives the result, once
    the guard and the closing check are passed. *)
Lemma get_trajectories_from_first_true l steps (idx : nat) :
  steps ≤ total_steps l →
  list_find Is_true (quota_mask l steps) = Some (idx, true) →
  steps ≤ total_steps (take (S idx) l) →
  _get_trajectories l steps = Ok (take (S idx) l).
Proof.
  intros Hle Hfind Hge. unfold _get_trajectories.
  rewrite bool_decide_eq_false_2 by lia.
  unfold np_argmax. destruct (quota_mask l steps) as [|b m] eqn:Hmask; [done|].
  rewrite Hfind. simpl. by rewrite bool_decide_eq_true_2.
Qed.
End selector_facts.


(** ** The step-quota selector: specification *)

Section selector_spec.
Context {Traj : Type} `{!Sized Traj, !NumPy}.
Implicit Types (l r p q : list Traj) (steps : Z).

Lemma prefix_is_take q p : q `prefix_of` p → q = take (length q) p.
Proof. intros [k ->]. by rewrite take_app_length. Qed.

(** C1 (amended): on a non-empty sequence with [steps] at most the total,
    and the total below [2^63] (so that the 64-bit running totals do not
    wrap), the selector returns a non-empty prefix of the input, in input
    order, whose summed length reaches [steps]; no shorter non-empty prefix
    reaches [steps]; and when [steps] is positive, removing the last element
    of the result drops the summed length below [steps]. *)
Theorem get_trajectories_minimal_prefix l steps :
  l ≠ [] → steps ≤ total_steps l → total_steps l < 2 ^ 63 →
  ∃ p x, _get_trajectories l steps = Ok (p ++ [x]) ∧
         (p ++ [x]) `prefix_of` l ∧
         steps ≤ total_steps (p ++ [x]) ∧
         (∀ q, q ≠ [] → q `prefix_of` p → total_steps q < steps) ∧
         (0 < steps → total_steps p < steps).
Proof.
  intros Hne Hle Hbound.
  destruct (get_trajectories_ok l steps Hbound Hne Hle)
    as (idx & Hget & Hlt & Hge & Hmin).
  destruct (lookup_lt_is_Some_2 l idx Hlt) as [x Hx].
  pose proof (take_S_r l idx x Hx) as Hsnoc.
  exists (take idx l), x. rewrite <- Hsnoc. split_and!.
  - done.
  - apply prefix_take.
  - done.
  - intros q Hq Hpre.
    assert (length q ≤ idx)%nat as Hlen.
    { apply prefix_length in Hpre. rewrite length_take in Hpre. lia. }
    apply prefix_is_take in Hpre. rewrite take_take in Hpre.
    destruct (length q) as [|j] eqn:Hj.
    { destruct q; [done|discriminate]. }
    rewrite Hpre. replace (S j `min` idx)%nat with (S j) by lia.
    apply Hmin. lia.
  - intros Hpos. destruct idx as [|j]; [by rewrite take_0|].
    apply Hmin. lia.
Qed.

(** C2: when [steps] exceeds the total summed length the selector raises a
    [RuntimeError] whose message gives the requested and the available
    counts, so nothing is returned; and on any input, a returned result
    never falls short of [steps]. *)
Theorem get_trajectories_insufficient_fails l steps :
  (total_steps l < steps →
     _get_trajectories l steps
     = Raise (RuntimeError
         ("Asked for " +:+ pretty steps +:+ " transitions but only "
            +:+ pretty (total_steps l) +:+ " available")) ∧
     ∀ r, _get_trajectories l steps ≠ Ok r) ∧
  (∀ r, _get_trajectories l steps = Ok r → steps ≤ total_steps r).
Proof.
  split.
  - intros Hlt. rewrite (get_trajectories_insufficient l steps Hlt).
    split; [done|]. intros r; discriminate.
  - intros r Hr. by apply get_trajectories_sound in Hr as [_ ?].
Qed.

(** C9: on the empty sequence with [steps = 0] the guard does not fire
    (the available count [0] is not below [0]), and the selector raises the
    [ValueError] of [argmax] instead of returning the empty prefix. *)
Theorem get_trajectories_empty_zero :
  total_steps ([] : list Traj) = 0 ∧
  ¬ (total_steps ([] : list Traj) < 0) ∧
  _get_trajectories ([] : list Traj) 0
  = Raise (ValueError "attempt to get argmax of an empty sequence") ∧
  _get_trajectories ([] : list Traj) 0 ≠ Ok [].
Proof.
  split_and!; [done|done| |].
  - by apply get_trajectories_nil.
  - by rewrite get_trajectories_nil.
Qed.
End selector_spec.

(** The selector on one trajectory of four steps, asked for no steps at
    all, returns that trajectory although the empty prefix already meets
    the quota: removing the last element does not drop the sum below
    [steps].  So the minimality claim does not hold for every [steps] up to
    the total. *)
Lemma get_trajectories_not_minimal_at_zero :
  ¬ (∀ (l : list Toy.traj) (steps : Z),
       steps ≤ total_steps l →
       ∃ p x, _get_trajectories l steps = Ok (p ++ [x]) ∧
              (p ++ [x]) `prefix_of` l ∧
              steps ≤ total_steps (p ++ [x]) ∧
              total_steps p < steps).
Proof.
  intros Hclaim.
  destruct (Hclaim [Toy.episode 4 1] 0) as (p & x & Hget & _ & _ & Hlt).
  { by vm_compute. }
  pose proof (total_steps_nonneg p). lia.
Qed.

Example get_trajectories_at_zero :
  _get_trajectories [Toy.episode 4 1] 0 = Ok [Toy.episode 4 1].
Proof. vm_compute. reflexivity. Qed.

Lemma get_trajectories_minimal_prefix_witness :
  Toy.stored ≠ [] ∧ 6 ≤ total_steps Toy.stored ∧
  total_steps Toy.stored < 2 ^ 63 ∧
  ∃ p x, _get_trajectories Toy.stored 6 = Ok (p ++ [x]) ∧
         (p ++ [x]) `prefix_of` Toy.stored ∧
         6 ≤ total_steps (p ++ [x]) ∧
         (∀ q, q ≠ [] → q `prefix_of` p → total_steps q < 6) ∧
         (0 < 6 → total_steps p < 6).
Proof.
  assert (Toy.stored ≠ []) as Hne by discriminate.
  assert (6 ≤ total_steps Toy.stored) as Hle by (vm_compute; discriminate).
  assert (total_steps Toy.stored < 2 ^ 63) as Hbound
    by (vm_compute; reflexivity).
  split_and!; [exact Hne|exact Hle|exact Hbound|].
  exact (get_trajectories_minimal_prefix Toy.stored 6 Hne Hle Hbound).
Defined.

Lemma get_trajectories_insufficient_fails_witness :
  total_steps Toy.stored < 12 ∧
  _get_trajectories Toy.stored 12
  = Raise (RuntimeError
      ("Asked for " +:+ pretty 12 +:+ " transitions but only "
         +:+ pretty (total_steps Toy.stored) +:+ " available")) ∧
  ∀ r, _get_trajectories Toy.stored 12 ≠ Ok r.
Proof.
  assert (total_steps Toy.stored < 12) as Hlt by (vm_compute; reflexivity).
  split; [exact Hlt|].
  exact (proj1 (get_trajectories_insufficient_fails Toy.stored 12) Hlt).
Defined.

(** Where the running totals wrap.  Two trajectories of [2^62] steps hold
    [2^63] steps, but their second running total is [-2^63]: asked for
    [2^62 + 1] steps, the mask is [False] throughout, [argmax] gives [0] and
    the closing check fails on the first trajectory alone. *)
Lemma span_len (n : Toy.span) : len n = Z.of_N n.
Proof. unfold len, py_len, Toy.span_sized. apply N_nat_Z. Qed.

Example np_cumsum_wraps : np_cumsum [2 ^ 62; 2 ^ 62] = [2 ^ 62; - 2 ^ 63].
Proof. vm_compute. reflexivity. Qed.

Example get_trajectories_wrapped_check `{!NumPy} :
  _get_trajectories [(2 ^ 62)%N : Toy.span; (2 ^ 62)%N : Toy.span] (2 ^ 62 + 1)
  = Raise AssertionError.
Proof.
  assert (quota_mask [(2 ^ 62)%N : Toy.span; (2 ^ 62)%N : Toy.span] (2 ^ 62 + 1)
          = [false; false]) as Hmask.
  { unfold quota_mask. rewrite !fmap_cons, fmap_nil, !span_len.
    vm_compute. reflexivity. }
  unfold _get_trajectories. rewrite Hmask. clear Hmask.
  rewrite !total_steps_cons. change (total_steps []) with 0.
  rewrite !span_len.
  case_bool_decide as Hguard.
  { vm_compute in Hguard. discriminate Hguard. }
  clear Hguard. change (np_argmax [false; false]) with (Ok 0%nat).
  unfold mbind, res_bind. rewrite firstn_cons, take_0, total_steps_cons.
  change (total_steps []) with 0. rewrite span_len.
  case_bool_decide as Hcheck; [|reflexivity].
  exfalso. apply Hcheck. vm_compute. reflexivity.
Qed.

(** With lengths [1], [2^63 - 1], [2^63 - 1] and [3] the running totals are
    [1], [-2^63], [-1] and [2]: asked for [2] steps, the selector returns
    all four trajectories, although the first two already hold enough. *)
Example get_trajectories_wrapped_prefix `{!NumPy} :
  _get_trajectories
    [1%N : Toy.span; (2 ^ 63 - 1)%N : Toy.span; (2 ^ 63 - 1)%N : Toy.span;
     3%N : Toy.span] 2
  = Ok [1%N : Toy.span; (2 ^ 63 - 1)%N : Toy.span; (2 ^ 63 - 1)%N : Toy.span;
        3%N : Toy.span].
Proof.
  set (l := [1%N : Toy.span; (2 ^ 63 - 1)%N : Toy.span;
             (2 ^ 63 - 1)%N : Toy.span; 3%N : Toy.span]).
  assert (quota_mask l 2 = [false; false; false; true]) as Hmask.
  { unfold quota_mask, l. rewrite !fmap_cons, fmap_nil, !span_len.
    vm_compute. reflexivity. }
  assert (total_steps l = 2 ^ 64 + 2) as Htotal.
  { unfold l. rewrite !total_steps_cons. change (total_steps []) with 0.
    rewrite !span_len. vm_compute. reflexivity. }
  unfold _get_trajectories. rewrite Hmask, Htotal. clear Hmask.
  case_bool_decide as Hguard.
  { vm_compute in Hguard. discriminate Hguard. }
  clear Hguard. change (np_argmax [false; false; false; true]) with (Ok 3%nat).
  unfold mbind, res_bind.
  replace (take 4 l) with l by reflexivity. rewrite Htotal. clear Htotal.
  case_bool_decide as Hcheck; [reflexivity|].
  exfalso. apply Hcheck. vm_compute. discriminate.
Qed.

Example insufficient_message :
  _get_trajectories Toy.stored 12
  = Raise (RuntimeError "Asked for 12 transitions but only 11 available").
Proof. vm_compute. reflexivity. Qed.

Example selector_first_two :
  _get_trajectories Toy.stored 6 = Ok [Toy.episode 4 1; Toy.episode 5 1].
Proof. vm_compute. reflexivity. Qed.

(** ** Strings *)

Lemma string_app_length (a s : string) :
  String.length (a +:+ s) = (String.length a + String.length s)%nat.
Proof. induction a as [|c a IH]; simpl; [done|]. by rewrite IH. Qed.

Lemma string_app_inv_tail (a b s : string) : a +:+ s = b +:+ s → a = b.
Proof.
  revert b. induction a as [|c a IH]; intros [|c' b] Heq.
  - done.
  - apply (f_equal String.length) in Heq.
    rewrite !string_app_length in Heq. simpl in Heq. lia.
  - apply (f_equal String.length) in Heq.
    rewrite !string_app_length in Heq. simpl in Heq. lia.
  - injection Heq as -> Heq. f_equal. by apply IH.
Qed.

(** ** AgentTrainer: specification *)

(** Unfold the plumbing of the monad and of the recorded calls. *)
Ltac run :=
  unfold mbind, M_bind, mret, M_ret, gets, raise, lift_res,
         AgentTrainer.invoke, AgentTrainer.effect, AgentTrainer.query,
         AgentTrainer.total; simpl.

Section agent_spec.
Context {Traj Kwargs Ext : Type}.
Context `{!Sized Traj, !NumPy, !Collaborators Traj Kwargs Ext,
         !Logging}.
Implicit Types (self : AgentTrainer.t) (w : AgentTrainer.world Kwargs Ext).
Implicit Types (steps : Z) (kwargs : Kwargs).

Import AgentTrainer.

(** The error message of [train] determines the leftover count. *)
Lemma leftover_msg_inj (n m : Z) : leftover_msg n = leftover_msg m → n = m.
Proof.
  unfold leftover_msg. intros Heq.
  apply (inj (String.append "There are ")) in Heq.
  apply string_app_inv_tail in Heq.
  by apply (inj pretty) in Heq.
Qed.

(** C3: with a non-zero count of unclaimed transitions [train] raises a
    [RuntimeError] whose message states that count, and neither the
    collaborators nor the record of calls change, so [learn] is not
    invoked; with a zero count [train] is exactly one call of the
    algorithm's [learn] with the requested steps and the forwarded
    options. *)
Theorem train_guards_buffer self steps kwargs w :
  let n := n_transitions (buffering_wrapper self) (ext w) in
  (n ≠ 0 →
     train self steps kwargs w
     = (Raise (RuntimeError
          ("There are " +:+ pretty n +:+ " transitions left in the buffer. "
             +:+ "Call AgentTrainer.sample() first to clear them.")), w) ∧
     (∀ m, leftover_msg m = leftover_msg n → m = n)) ∧
  (n = 0 →
     train self steps kwargs w
     = ((learn (algorithm self) steps kwargs (ext w)).1,
        World ((learn (algorithm self) steps kwargs (ext w)).2)
              (calls w ++ [CallLearn (algorithm self) steps kwargs]))).
Proof.
  intros n. split.
  - intros Hn. split; [|intros m; apply leftover_msg_inj].
    unfold train. run. fold n. by rewrite bool_decide_eq_true_2.
  - intros Hn. unfold train. run. fold n. rewrite bool_decide_eq_false_2 by lia.
    by destruct (learn _ _ _ _).
Qed.

(** C7: assigning the generator's logger stores the value in the
    generator and passes the same value to the algorithm's [set_logger]. *)
Theorem logger_setter_propagates self value w :
  ∃ self',
    logger_setter self value w
    = (Ok self',
       World (set_logger (algorithm self) value (ext w))
             (calls w ++ [CallSetLogger (algorithm self) value])) ∧
    logger self' = value ∧
    algorithm self' = algorithm self ∧
    reward_fn self' = reward_fn self ∧
    buffering_wrapper self' = buffering_wrapper self ∧
    venv self' = venv self.
Proof. eexists. split; [reflexivity|]. by split_and!. Qed.

(** C6 (amended): when the algorithm's environment is not a vectorized
    environment, construction raises a [ValueError]; the calls made on the
    algorithm are [set_logger] and [get_env] only, so [set_env] is not
    called and the algorithm keeps the environment it had; the
    algorithm's logger, however, has been replaced before the check. *)
Theorem init_rejects_unset_env (algorithm : handle) (reward : reward_arg)
    (custom_logger : option HierarchicalLogger) w :
  (∀ venv, get_env algorithm (ext w) ≠ PyVecEnv venv) →
  let value := from_option id configure custom_logger in
  ∃ w',
    __init__ algorithm reward custom_logger w
    = (Raise (ValueError "The environment for the agent algorithm must be set."), w') ∧
    ext w' = set_logger algorithm value (ext w) ∧
    calls w' = calls w ++ [CallSetLogger algorithm value; CallGetEnv algorithm] ∧
    get_env algorithm (ext w') = get_env algorithm (ext w).
Proof.
  intros Henv value.
  exists (World (set_logger algorithm value (ext w))
                (calls w ++ [CallSetLogger algorithm value; CallGetEnv algorithm])).
  split_and!; [|done|done|by apply get_env_set_logger].
  unfold __init__, TrajectoryGenerator.__init__, logger_fset. run.
  fold value. rewrite get_env_set_logger.
  destruct (get_env algorithm (ext w)) as [| |venv] eqn:Hget.
  - by rewrite <- (assoc_L (++)).
  - by rewrite <- (assoc_L (++)).
  - by destruct (Henv venv).
Qed.

(** With a vectorized environment set, construction builds the buffering
    wrapper over it, the reward wrapper over that, and re-points the
    algorithm. *)
Lemma init_wraps_env (algorithm : handle) (reward : reward_arg)
    (custom_logger : option HierarchicalLogger) w venv0 :
  get_env algorithm (ext w) = PyVecEnv venv0 →
  let value := from_option id configure custom_logger in
  let fn := match reward with IsRewardNet net => Predict net | IsRewardFn f => f end in
  let bw := BufferingWrapper venv0 in
  let venv1 := RewardVecEnvWrapper bw fn in
  __init__ algorithm reward custom_logger w
  = (Ok (Build algorithm value fn bw venv1),
     World (set_env algorithm venv1 (set_logger algorithm value (ext w)))
           (calls w ++ [CallSetLogger algorithm value; CallGetEnv algorithm;
                        CallSetEnv algorithm venv1])).
Proof.
  intros Hget value fn bw venv1.
  unfold __init__, TrajectoryGenerator.__init__, logger_fset. run.
  fold value. rewrite get_env_set_logger, Hget. simpl.
  by rewrite <- !(assoc_L (++)).
Qed.
End agent_spec.

Section agent_sample_unfold.
Context {Traj Kwargs Ext : Type}.
Context `{!Sized Traj, !NumPy, C : !Collaborators Traj Kwargs Ext,
         !Logging}.
Implicit Types (self : AgentTrainer.t) (w : AgentTrainer.world Kwargs Ext).
Implicit Types (steps : Z).

Import AgentTrainer.

(** What [sample] does, in terms of the collaborators' operations. *)
Lemma sample_unfold self steps w :
  let bw := buffering_wrapper self in
  let popped := pop_trajectories bw (ext w) in
  let recent_first := reverse popped.1 in
  let avail := total_steps popped.1 in
  let c1 := calls w ++ [CallPopTrajectories bw] in
  let msg := topup_msg steps avail in
  let until := make_sample_until (Some (steps - avail)) None in
  let rollout :=
    generate_trajectories (algorithm self) (venv self) until
      (log (logger self) msg popped.2) in
  let c3 := c1 ++ [CallLog (logger self) msg;
                   CallGenerateTrajectories (algorithm self) (venv self) until] in
  let popped' := pop_trajectories bw rollout.2 in
  sample self steps w
  = if bool_decide (avail < steps) then
      match rollout.1 with
      | Ok _ => (_get_trajectories (recent_first ++ popped'.1) steps,
                 World popped'.2 (c3 ++ [CallPopTrajectories bw]))
      | Raise err => (Raise err, World rollout.2 c3)
      end
    else (_get_trajectories recent_first steps, World popped.2 c1).
Proof.
  intros bw popped recent_first avail c1 msg until rollout c3 popped'.
  unfold sample, _pop_trajectories. run. fold bw popped.
  subst popped' c3 rollout. subst until msg c1 avail recent_first.
  destruct popped as [drained e1]; simpl.
  rewrite total_steps_reverse.
  case_bool_decide; [|done]. simpl.
  destruct (generate_trajectories _ _ _ _) as [[out|err] e3]; simpl.
  - destruct (pop_trajectories bw e3) as [additional e4]; simpl.
    by rewrite <- !(assoc_L (++)).
  - by rewrite <- !(assoc_L (++)).
Qed.

End agent_sample_unfold.

Section agent_sample_spec.
Context {Traj Kwargs Ext : Type}.
Context `{!Sized Traj, !NumPy, C : !Collaborators Traj Kwargs Ext,
         !Logging}.
Implicit Types (self : AgentTrainer.t) (w : AgentTrainer.world Kwargs Ext).
Implicit Types (steps : Z).

Import AgentTrainer.

(** C4: [sample] drains the collector and reverses the drained list.  If
    the drained trajectories already sum to [steps], nothing is logged and
    no rollout is run.  Otherwise a message stating the shortfall is logged,
    the rollout utility is run with [min_timesteps] equal to [steps] minus
    the drained sum and no episode bound, the collector is drained again and
    the new trajectories are put after the reversed ones.  The selector is
    applied to that list: a returned result sums to at least [steps], each
    of its trajectories came out of one of the two drains, the list the
    rollout utility hands back has no influence on it, and a result is
    returned whenever the second drain covers the shortfall and the two
    drains together hold fewer than [2^63] steps (so that the 64-bit
    running totals of the selector do not wrap). *)
Theorem sample_drains_and_tops_up self steps w :
  let bw := buffering_wrapper self in
  let drained := (pop_trajectories bw (ext w)).1 in
  let e1 := (pop_trajectories bw (ext w)).2 in
  let avail := total_steps drained in
  let c1 := calls w ++ [CallPopTrajectories bw] in
  let msg :=
    "Requested " +:+ pretty steps +:+ " transitions but only "
      +:+ pretty avail +:+ " in buffer. "
      +:+ "Sampling " +:+ pretty (steps - avail)
      +:+ " additional transitions." in
  let until := make_sample_until (Some (steps - avail)) None in
  let rollout :=
    generate_trajectories (algorithm self) (venv self) until
      (log (_logger self) msg e1) in
  let c3 := c1 ++ [CallLog (_logger self) msg;
                   CallGenerateTrajectories (algorithm self) (venv self) until] in
  let additional := (pop_trajectories bw rollout.2).1 in
  let e4 := (pop_trajectories bw rollout.2).2 in
  (steps ≤ avail →
     sample self steps w
     = (_get_trajectories (reverse drained) steps, World e1 c1)) ∧
  (avail < steps →
     sample self steps w
     = match rollout.1 with
       | Ok _ => (_get_trajectories (reverse drained ++ additional) steps,
                  World e4 (c3 ++ [CallPopTrajectories bw]))
       | Raise err => (Raise err, World rollout.2 c3)
       end) ∧
  (∀ r w', sample self steps w = (Ok r, w') →
     steps ≤ total_steps r ∧
     ∀ traj, traj ∈ r → traj ∈ drained ∨ (avail < steps ∧ traj ∈ additional)) ∧
  (∀ f, sample (C := with_rollout_output C f) self steps w
        = sample self steps w) ∧
  (avail < steps → is_ok rollout.1 → steps - avail ≤ total_steps additional →
     avail + total_steps additional < 2 ^ 63 →
     ∃ r w', sample self steps w = (Ok r, w')).
Proof.
  intros bw drained e1 avail c1 msg until rollout c3 additional e4.
  pose proof (sample_unfold self steps w) as Hs. simpl in Hs.
  fold bw drained e1 avail in Hs. fold c1 in Hs.
  change (topup_msg steps avail) with msg in Hs.
  fold until in Hs. change (logger self) with (_logger self) in Hs.
  fold rollout in Hs. fold c3 additional e4 in Hs.
  split_and!.
  - intros Hle. rewrite Hs. by rewrite bool_decide_eq_false_2 by lia.
  - intros Hlt. rewrite Hs. by rewrite bool_decide_eq_true_2.
  - intros r w' Hr. rewrite Hs in Hr. case_bool_decide.
    + destruct (rollout.1); [|done]. injection Hr as Hr _.
      apply get_trajectories_sound in Hr as [Hpre Hge]. split; [done|].
      intros traj Hin.
      assert (traj ∈ reverse drained ++ additional) as Hin'.
      { destruct Hpre as [k ->]. apply elem_of_app. by left. }
      apply elem_of_app in Hin' as [Hin'|Hin'].
      * left. revert Hin'. apply elem_of_reverse.
      * right. done.
    + injection Hr as Hr _.
      apply get_trajectories_sound in Hr as [Hpre Hge]. split; [done|].
      intros traj Hin. left.
      assert (traj ∈ reverse drained) as Hin'.
      { destruct Hpre as [k ->]. apply elem_of_app. by left. }
      revert Hin'. apply elem_of_reverse.
  - intros f. rewrite Hs.
    pose proof (sample_unfold (C := with_rollout_output C f) self steps w) as Hf.
    simpl in Hf. rewrite Hf. clear Hf Hs.
    fold bw drained e1 avail. fold c1.
    change (topup_msg steps avail) with msg. fold until.
    change (logger self) with (_logger self). fold rollout.
    destruct rollout as [[out|err] e3] eqn:Hro; simpl; done.
  - intros Hlt Hok Hcover Hbound. rewrite Hs.
    rewrite bool_decide_eq_true_2 by done.
    destruct (rollout.1) as [out|err]; [|done].
    pose proof (total_steps_nonneg drained) as Hnn. fold avail in Hnn.
    destruct (get_trajectories_ok (reverse drained ++ additional) steps)
      as (idx & Hget & _).
    + rewrite total_steps_app, total_steps_reverse. by fold avail.
    + intros Hnil. apply (f_equal total_steps) in Hnil.
      rewrite total_steps_app, total_steps_reverse in Hnil.
      fold avail in Hnil. change (total_steps []) with 0 in Hnil. lia.
    + rewrite total_steps_app, total_steps_reverse. fold avail. lia.
    + rewrite Hget. by eexists _, _.
Qed.
End agent_sample_spec.

(** ** TrajectoryGenerator and TrajectoryDataset: specification *)

Section dataset_spec.
Context {Traj Rng Path Kwargs : Type}.
Context `{!Sized Traj, !NumPy, !PyRandom Rng, !TrajStore Path Traj,
         !Logging}.
Implicit Types (self : TrajectoryDataset.t).
Implicit Types (w : TrajectoryDataset.world Traj Rng) (steps : Z).

Import TrajectoryDataset.

Ltac run_ds :=
  unfold sample, py_list, read_list, new_list, shuffle, new_Random, dangling,
         mbind, M_bind, mret, M_ret, raise, lift_res; simpl.

Lemma fresh_list_ne w x :
  is_Some (lists w !! x) → fresh (dom (lists w)) ≠ x.
Proof.
  intros Hx Heq. apply elem_of_dom in Hx. rewrite <- Heq in Hx.
  by apply is_fresh in Hx.
Qed.

(** [sample] on an instance whose objects are live: the stored list is
    copied to a fresh place, the copy is shuffled there, and the generator
    object moves on. *)
Lemma sample_live self steps w data g :
  lists w !! _trajectories self = Some data →
  rngs w !! rng self = Some g →
  sample self steps w
  = (_get_trajectories (shuffled g data).1 steps,
     World (<[fresh (dom (lists w)) := (shuffled g data).1]> (lists w))
           (<[rng self := (shuffled g data).2]> (rngs w))).
Proof.
  intros Hl Hg. run_ds. rewrite Hl. simpl. rewrite Hg.
  rewrite lookup_insert_eq. destruct (shuffled g data) as [l' g']. simpl.
  rewrite lookup_insert_eq. by rewrite insert_insert_eq.
Qed.

(** C10: [sample] leaves the stored trajectory collection as it was; indeed
    every list that existed before the call is untouched (the shuffle works
    on a new list), and so is every generator object other than the
    instance's own. *)
Theorem sample_keeps_collection self steps w :
  let w' := (sample self steps w).2 in
  lists w' !! _trajectories self = lists w !! _trajectories self ∧
  (∀ x, is_Some (lists w !! x) → lists w' !! x = lists w !! x) ∧
  (∀ r, r ≠ rng self → rngs w' !! r = rngs w !! r).
Proof.
  intros w'.
  assert ((∀ x, is_Some (lists w !! x) → lists w' !! x = lists w !! x) ∧
          (∀ r, r ≠ rng self → rngs w' !! r = rngs w !! r)) as [Hlists Hrngs].
  { subst w'. run_ds.
    destruct (lists w !! _trajectories self) as [data|] eqn:Hl; simpl; [|done].
    destruct (rngs w !! rng self) as [g|] eqn:Hg; simpl.
    - rewrite lookup_insert_eq. destruct (shuffled g data) as [l' g']. simpl.
      rewrite lookup_insert_eq. simpl. split.
      + intros x Hx. rewrite !lookup_insert_ne by by apply fresh_list_ne. done.
      + intros r Hr. by rewrite lookup_insert_ne.
    - split; [|done].
      intros x Hx. by rewrite lookup_insert_ne by by apply fresh_list_ne. }
  split_and!; [|done|done].
  destruct (lists w !! _trajectories self) as [data|] eqn:Hl.
  - rewrite <- Hl. apply Hlists. by rewrite Hl.
  - subst w'. run_ds. by rewrite Hl.
Qed.

(** C8: [train] of the base class, which [TrajectoryDataset] inherits,
    returns [None] and leaves the whole state as it was. *)
Theorem train_is_noop self steps (kwargs : Kwargs) w :
  TrajectoryDataset.train self steps kwargs w = (Ok (), w) ∧
  ∀ (S : Type) (s : S), TrajectoryGenerator.train steps kwargs s = (Ok (), s).
Proof. split; [reflexivity|]. intros S s. reflexivity. Qed.

(** A run of [sample] calls on a live instance gives the pure stream. *)
Lemma samples_stream self data requests : ∀ w g,
  lists w !! _trajectories self = Some data →
  rngs w !! rng self = Some g →
  (samples self requests w).1 = Ok (shuffle_stream g data requests).
Proof.
  induction requests as [|steps requests IH]; intros w g Hl Hg; [done|].
  simpl. rewrite (sample_live self steps w data g Hl Hg).
  destruct (shuffled g data) as [l' g'] eqn:Hsh. simpl.
  unfold mbind, M_bind, mret, M_ret.
  match goal with |- context [samples self requests ?w1] =>
    specialize (IH w1 g') end.
  simpl in IH.
  rewrite lookup_insert_ne in IH by (apply fresh_list_ne; by rewrite Hl).
  rewrite lookup_insert_eq in IH. specialize (IH Hl eq_refl).
  destruct (samples self requests _) as [[rs|e] w2]; simpl in *; congruence.
Qed.

Lemma fresh_samples_stream path seed custom_logger requests w :
  (fresh_samples path seed custom_logger requests w).1
  = data ← types_load path; Ok (shuffle_stream (Random seed) data requests).
Proof.
  unfold fresh_samples, __init__, TrajectoryGenerator.__init__,
    TrajectoryGenerator.logger_fset.
  unfold mbind at 1 2 3 4 5, M_bind, mret, M_ret, lift_res. simpl.
  destruct (types_load path) as [data|e]; simpl; [|done].
  unfold new_list, new_Random. simpl.
  apply samples_stream; simpl; by rewrite lookup_insert_eq.
Qed.
End dataset_spec.

(** C5: two dataset generators constructed with the same seed from the same
    persisted collection answer any series of [sample] requests alike,
    whatever their loggers and whatever else lives on the heap.  The
    answers are those of one permutation stream started at the seed: each
    call shuffles with the generator state the previous call left, so the
    second of two equal requests is served from the advanced state, and
    with a generator whose permutations differ the two answers differ. *)
Theorem dataset_seeded_stream :
  (∀ (Traj Rng Path : Type)
     `{!Sized Traj, !NumPy, !PyRandom Rng, !TrajStore Path Traj, !Logging}
     (path : Path) (seed : Z) (logger1 logger2 : option HierarchicalLogger)
     (w1 w2 : TrajectoryDataset.world Traj Rng) (requests : list Z),
     (fresh_samples path seed logger1 requests w1).1
     = (fresh_samples path seed logger2 requests w2).1 ∧
     (fresh_samples path seed logger1 requests w1).1
     = (data ← types_load path;
        Ok (shuffle_stream (Random seed) data requests)) ∧
     ∀ data steps1 steps2,
       types_load path = Ok data →
       let first := shuffled (Random seed) data in
       let second := shuffled first.2 data in
       (fresh_samples path seed logger1 [steps1; steps2] w1).1
       = Ok [_get_trajectories first.1 steps1;
             _get_trajectories second.1 steps2]) ∧
  (∃ r1 r2,
     (fresh_samples "final.pkl" 0 None [6; 6] Toy.empty_heap).1
     = Ok [Ok r1; Ok r2] ∧ r1 ≠ r2).
Proof.
  split.
  - intros Traj Rng Path ? ? ? ? ? path seed logger1 logger2 w1 w2 requests.
    split_and!.
    + by rewrite !fresh_samples_stream.
    + apply fresh_samples_stream.
    + intros data steps1 steps2 Hload first second.
      rewrite fresh_samples_stream, Hload. simpl.
      subst second first.
      destruct (shuffled (Random seed) data) as [l1 g1]. simpl.
      by destruct (shuffled g1 data) as [l2 g2].
  - exists [Toy.episode 4 1; Toy.episode 5 1], [Toy.episode 2 1; Toy.episode 5 1].
    split; [|discriminate].
    rewrite fresh_samples_stream. vm_compute. reflexivity.
Qed.

Lemma dataset_seeded_stream_witness :
  types_load "final.pkl" = Ok Toy.stored ∧
  (fresh_samples "final.pkl" 0 (Some 9%positive) [6; 6] Toy.empty_heap).1
  = Ok [_get_trajectories (shuffled (Random 0) Toy.stored).1 6;
        _get_trajectories
          (shuffled (shuffled (Random 0) Toy.stored).2 Toy.stored).1 6].
Proof.
  assert (types_load "final.pkl" = Ok Toy.stored) as Hload by reflexivity.
  split; [exact Hload|].
  exact (proj2 (proj2 (proj1 dataset_seeded_stream Toy.traj nat string _ _ _ _ _
                         "final.pkl" 0 (Some 9%positive) None
                         Toy.empty_heap Toy.empty_heap []))
           Toy.stored 6 6 Hload).
Defined.

(** ** Worked instances *)

Lemma train_guards_buffer_witness :
  n_transitions (AgentTrainer.buffering_wrapper Toy.trainer)
    (AgentTrainer.ext (Toy.with_buffer [Toy.episode 3 1])) ≠ 0 ∧
  AgentTrainer.train Toy.trainer 10 [] (Toy.with_buffer [Toy.episode 3 1])
  = (Raise (RuntimeError
       "There are 3 transitions left in the buffer. Call AgentTrainer.sample() first to clear them."),
     Toy.with_buffer [Toy.episode 3 1]).
Proof.
  assert (n_transitions (AgentTrainer.buffering_wrapper Toy.trainer)
            (AgentTrainer.ext (Toy.with_buffer [Toy.episode 3 1])) ≠ 0) as Hn
    by (vm_compute; discriminate).
  split; [exact Hn|].
  exact (proj1 (proj1 (train_guards_buffer Toy.trainer 10 []
                         (Toy.with_buffer [Toy.episode 3 1])) Hn)).
Defined.

Example train_delegates :
  AgentTrainer.train Toy.trainer 10 ["log_interval"] (Toy.with_buffer [])
  = (Ok (),
     AgentTrainer.World
       (Toy.Ext (PyVecEnv (AgentTrainer.venv Toy.trainer)) 1%positive
                [Toy.episode 10 1] [])
       [AgentTrainer.CallLearn 2%positive 10 ["log_interval"]]).
Proof. vm_compute. reflexivity. Qed.

(** The top-up scenario: five steps buffered, eight requested. *)
Lemma sample_drains_and_tops_up_witness :
  total_steps
    (pop_trajectories (AgentTrainer.buffering_wrapper Toy.trainer)
       (AgentTrainer.ext (Toy.with_buffer [Toy.episode 2 1; Toy.episode 3 1]))).1
  < 8 ∧
  AgentTrainer.sample Toy.trainer 8
    (Toy.with_buffer [Toy.episode 2 1; Toy.episode 3 1])
  = (Ok [Toy.episode 3 1; Toy.episode 2 1; Toy.episode 3 1],
     AgentTrainer.World
       (Toy.Ext (PyVecEnv (AgentTrainer.venv Toy.trainer)) 1%positive []
          ["Requested 8 transitions but only 5 in buffer. Sampling 3 additional transitions."])
       [AgentTrainer.CallPopTrajectories (AgentTrainer.buffering_wrapper Toy.trainer);
        AgentTrainer.CallLog 1%positive
          "Requested 8 transitions but only 5 in buffer. Sampling 3 additional transitions.";
        AgentTrainer.CallGenerateTrajectories 2%positive
          (AgentTrainer.venv Toy.trainer) (make_sample_until (Some 3) None);
        AgentTrainer.CallPopTrajectories (AgentTrainer.buffering_wrapper Toy.trainer)]).
Proof.
  assert (total_steps
    (pop_trajectories (AgentTrainer.buffering_wrapper Toy.trainer)
       (AgentTrainer.ext (Toy.with_buffer [Toy.episode 2 1; Toy.episode 3 1]))).1
    < 8) as Hlt by (vm_compute; reflexivity).
  split; [exact Hlt|].
  exact (proj1 (proj2 (sample_drains_and_tops_up Toy.trainer 8
                         (Toy.with_buffer [Toy.episode 2 1; Toy.episode 3 1])))
           Hlt).
Defined.

(** Constructing a generator around an agent with no environment fails,
    yet the agent is not as it was: its logger [5] has become [7].  So the
    failed construction is not free of effects, even on the collaborators'
    state alone. *)
Lemma init_failure_replaces_logger :
  ¬ (∀ (algorithm : handle) (reward : reward_arg)
       (custom_logger : option HierarchicalLogger)
       (w : AgentTrainer.world (list string) Toy.ext),
       (∀ venv, get_env algorithm (AgentTrainer.ext w) ≠ PyVecEnv venv) →
       ∃ err w', AgentTrainer.__init__ algorithm reward custom_logger w
                 = (Raise err, w') ∧
                 AgentTrainer.ext w' = AgentTrainer.ext w).
Proof.
  intros Hclaim.
  destruct (Hclaim 2%positive (IsRewardFn (Callable 4%positive))
              (Some 7%positive) Toy.unset_agent) as (err & w' & Herr & Hext).
  { intros venv. discriminate. }
  vm_compute in Herr. injection Herr as _ <-.
  vm_compute in Hext. discriminate.
Qed.

Example init_failure_state :
  AgentTrainer.__init__ 2%positive (IsRewardFn (Callable 4%positive))
    (Some 7%positive) Toy.unset_agent
  = (Raise (ValueError "The environment for the agent algorithm must be set."),
     AgentTrainer.World (Toy.Ext PyNone 7%positive [] [])
       [AgentTrainer.CallSetLogger 2%positive 7%positive;
        AgentTrainer.CallGetEnv 2%positive]).
Proof. vm_compute. reflexivity. Qed.

Lemma init_rejects_unset_env_witness :
  (∀ venv, get_env 2%positive (AgentTrainer.ext Toy.unset_agent) ≠ PyVecEnv venv) ∧
  ∃ w',
    AgentTrainer.__init__ 2%positive (IsRewardNet 6%positive) None Toy.unset_agent
    = (Raise (ValueError "The environment for the agent algorithm must be set."), w') ∧
    AgentTrainer.ext w'
    = set_logger 2%positive configure (AgentTrainer.ext Toy.unset_agent) ∧
    AgentTrainer.calls w'
    = AgentTrainer.calls Toy.unset_agent
        ++ [AgentTrainer.CallSetLogger 2%positive configure;
            AgentTrainer.CallGetEnv 2%positive] ∧
    get_env 2%positive (AgentTrainer.ext w')
    = get_env 2%positive (AgentTrainer.ext Toy.unset_agent).
Proof.
  assert (∀ venv, get_env 2%positive (AgentTrainer.ext Toy.unset_agent)
                  ≠ PyVecEnv venv) as Henv by (intros venv; discriminate).
  split; [exact Henv|].
  exact (init_rejects_unset_env 2%positive (IsRewardNet 6%positive) None
           Toy.unset_agent Henv).
Defined.

Lemma sample_keeps_collection_witness :
  is_Some (TrajectoryDataset.lists Toy.dataset_heap_odd !! 1%positive) ∧
  TrajectoryDataset.lists
    (TrajectoryDataset.sample Toy.dataset 6 Toy.dataset_heap_odd).2 !! 1%positive
  = Some Toy.stored.
Proof.
  assert (is_Some (TrajectoryDataset.lists Toy.dataset_heap_odd !! 1%positive))
    as Hlive by (exists Toy.stored; reflexivity).
  split; [exact Hlive|].
  exact (proj1 (proj2 (sample_keeps_collection Toy.dataset 6 Toy.dataset_heap_odd))
           1%positive Hlive).
Defined.

Example dataset_sample_twice :
  (TrajectoryDataset.samples Toy.dataset [6; 6] Toy.dataset_heap).1
  = Ok [Ok [Toy.episode 4 1; Toy.episode 5 1];
        Ok [Toy.episode 2 1; Toy.episode 5 1]].
Proof.
  rewrite (samples_stream Toy.dataset Toy.stored [6; 6] Toy.dataset_heap 0%nat)
    by reflexivity.
  vm_compute. reflexivity.
Qed.

(** ** The step-quota selector: further properties *)

Section selector_more.
Context {Traj : Type} `{!Sized Traj, !NumPy}.
Implicit Types (l r p k : list Traj) (t : Traj) (steps : Z).

(** The three ways a call can end when the total fits 64 bits. *)
Lemma get_trajectories_cases l steps :
  total_steps l < 2 ^ 63 →
  (total_steps l < steps ∧
   _get_trajectories l steps
   = Raise (RuntimeError (insufficient_msg steps (total_steps l)))) ∨
  (l = [] ∧ steps ≤ 0 ∧
   _get_trajectories l steps
   = Raise (ValueError "attempt to get argmax of an empty sequence")) ∨
  (l ≠ [] ∧ steps ≤ total_steps l ∧
   ∃ idx : nat,
     _get_trajectories l steps = Ok (take (S idx) l) ∧ (idx < length l)%nat ∧
     steps ≤ total_steps (take (S idx) l) ∧
     ∀ j : nat, (j < idx)%nat → total_steps (take (S j) l) < steps).
Proof.
  intros Hbound.
  destruct (decide (total_steps l < steps)) as [Hlt|Hge].
  { left. split; [done|]. by apply get_trajectories_insufficient. }
  right. destruct l as [|t l].
  - left. split; [done|]. change (total_steps []) with 0 in Hge.
    split; [lia|]. apply get_trajectories_nil. lia.
  - right. split; [done|]. split; [lia|].
    apply get_trajectories_ok; [done|done|lia].
Qed.

(** With a total that fits 64 bits, a returned result is the prefix through
    the least index whose running total reaches [steps]. *)
Lemma get_trajectories_inv l steps r :
  total_steps l < 2 ^ 63 →
  _get_trajectories l steps = Ok r →
  ∃ idx : nat,
    r = take (S idx) l ∧ (idx < length l)%nat ∧
    steps ≤ total_steps (take (S idx) l) ∧
    ∀ j : nat, (j < idx)%nat → total_steps (take (S j) l) < steps.
Proof.
  intros Hbound Hr.
  destruct (get_trajectories_cases l steps Hbound)
    as [[_ He]|[(_ & _ & He)|(_ & _ & idx & He & Hrest)]].
  - rewrite He in Hr. discriminate.
  - rewrite He in Hr. discriminate.
  - rewrite He in Hr. injection Hr as <-. by exists idx.
Qed.

(** The first [True] entry of a mask is still the first after the mask is
    cut behind it. *)
Lemma list_find_take_S (mask : list bool) (i : nat) (b : bool) :
  list_find Is_true mask = Some (i, b) →
  list_find Is_true (take (S i) mask) = Some (i, b).
Proof.
  intros (Hi & Hb & Hmin)%list_find_Some. apply list_find_Some. split_and!.
  - by rewrite lookup_take_lt by lia.
  - done.
  - intros j y Hj Hlt. rewrite lookup_take_lt in Hj by lia. by eapply Hmin.
Qed.

(** X1: when the summed length of the input is below [2^63], the selector
    returns a result exactly when the input is non-empty and holds at least
    [steps] steps. *)
Theorem get_trajectories_returns_iff l steps :
  total_steps l < 2 ^ 63 →
  (∃ r, _get_trajectories l steps = Ok r) ↔ l ≠ [] ∧ steps ≤ total_steps l.
Proof.
  intros Hbound. split.
  - intros [r Hr].
    destruct (get_trajectories_cases l steps Hbound)
      as [[_ He]|[(_ & _ & He)|(Hne & Hle & _)]]; [| |done].
    + rewrite He in Hr. discriminate.
    + rewrite He in Hr. discriminate.
  - intros [Hne Hle].
    destruct (get_trajectories_ok l steps Hbound Hne Hle) as (idx & Hget & _).
    by exists (take (S idx) l).
Qed.

(** X2: when the summed length of the input is below [2^63], the closing
    sanity check does not fail: the call does not end in an
    [AssertionError]. *)
Theorem get_trajectories_assertion_holds l steps :
  total_steps l < 2 ^ 63 →
  _get_trajectories l steps ≠ Raise AssertionError.
Proof.
  intros Hbound.
  destruct (get_trajectories_cases l steps Hbound)
    as [[_ He]|[(_ & _ & He)|(_ & _ & idx & He & _)]];
    rewrite He; discriminate.
Qed.

(** X3: asked for no steps (or a negative number), the selector returns the
    first trajectory alone (its length being below [2^63], as every [len]
    is). *)
Theorem get_trajectories_nonpositive t l steps :
  len t < 2 ^ 63 →
  steps ≤ 0 → _get_trajectories (t :: l) steps = Ok [t].
Proof.
  intros Hlen Hle.
  replace [t] with (take 1 (t :: l)) by (by rewrite firstn_cons, take_0).
  pose proof (len_nonneg t) as Hnn.
  apply get_trajectories_from_first_true.
  - pose proof (total_steps_nonneg (t :: l)). lia.
  - apply list_find_Some. split_and!.
    + rewrite quota_mask_head by lia. by rewrite bool_decide_eq_true_2 by lia.
    + done.
    + intros j y _ Hj. lia.
  - pose proof (total_steps_nonneg (take 1 (t :: l))). lia.
Qed.

(** X4: trajectories put after the input do not change a result (the
    lengths being below [2^63], as every [len] is). *)
Theorem get_trajectories_app_stable l k steps r :
  Forall (λ t, len t < 2 ^ 63) l →
  _get_trajectories l steps = Ok r →
  _get_trajectories (l ++ k) steps = Ok r.
Proof.
  intros Hlens (idx & -> & Hfind & Hge & Hle)%get_trajectories_first_true;
    [|done].
  assert (idx < length l)%nat as Hidx.
  { apply list_find_Some in Hfind as (Hi%lookup_lt_Some & _).
    by rewrite quota_mask_length in Hi. }
  rewrite <- (take_app_le l k (S idx)) by lia.
  apply get_trajectories_from_first_true.
  - rewrite total_steps_app. pose proof (total_steps_nonneg k). lia.
  - destruct (quota_mask_app l k steps) as [more ->].
    apply list_find_app_Some. by left.
  - by rewrite take_app_le by lia.
Qed.

(** X5: a result selects itself: applying the selector to what it returned
    gives the same list (the lengths being below [2^63], as every [len]
    is). *)
Theorem get_trajectories_idempotent l steps r :
  Forall (λ t, len t < 2 ^ 63) l →
  _get_trajectories l steps = Ok r → _get_trajectories r steps = Ok r.
Proof.
  intros Hlens (idx & -> & Hfind & Hge & Hle)%get_trajectories_first_true;
    [|done].
  assert (take (S idx) (take (S idx) l) = take (S idx) l) as Htake.
  { rewrite take_take. f_equal. lia. }
  rewrite <- Htake at 2.
  apply get_trajectories_from_first_true.
  - done.
  - rewrite quota_mask_take. by apply list_find_take_S.
  - by rewrite Htake.
Qed.

(** X6: when the summed length of the input is below [2^63], asking for
    more steps extends the result: the result for the smaller request is a
    prefix of the result for the larger one. *)
Theorem get_trajectories_monotone l steps1 steps2 r1 r2 :
  total_steps l < 2 ^ 63 →
  steps1 ≤ steps2 →
  _get_trajectories l steps1 = Ok r1 →
  _get_trajectories l steps2 = Ok r2 →
  r1 `prefix_of` r2.
Proof.
  intros Hbound Hle H1 H2.
  apply (get_trajectories_inv _ _ _ Hbound) in H1
    as (i1 & -> & Hi1 & Hge1 & Hmin1).
  apply (get_trajectories_inv _ _ _ Hbound) in H2
    as (i2 & -> & Hi2 & Hge2 & Hmin2).
  assert (i1 ≤ i2)%nat as Hi.
  { destruct (le_lt_dec i1 i2) as [|Hgt]; [done|].
    specialize (Hmin1 i2 Hgt). lia. }
  replace (take (S i1) l) with (take (S i1) (take (S i2) l)).
  - apply prefix_take.
  - rewrite take_take. f_equal. lia.
Qed.

Lemma length_le_total_steps p :
  Forall (λ t, 1 ≤ len t) p → Z.of_nat (length p) ≤ total_steps p.
Proof.
  induction 1 as [|t p Ht _ IH]; [done|].
  unfold total_steps in *. csimpl. lia.
Qed.

(** What is left of a result without its last element falls short of a
    positive request. *)
Lemma get_trajectories_before_last l steps (idx : nat) :
  0 < steps →
  (∀ j : nat, (j < idx)%nat → total_steps (take (S j) l) < steps) →
  total_steps (take idx l) < steps.
Proof.
  intros Hpos Hmin. destruct idx as [|j]; [by rewrite take_0|].
  apply Hmin. lia.
Qed.

(** X7: when no trajectory is empty and the summed length of the input is
    below [2^63], a positive request for [steps] steps is answered with at
    most [steps] trajectories. *)
Theorem get_trajectories_count_bound l steps r :
  total_steps l < 2 ^ 63 →
  Forall (λ t, 1 ≤ len t) l → 0 < steps →
  _get_trajectories l steps = Ok r →
  Z.of_nat (length r) ≤ steps.
Proof.
  intros Hbound Hpos Hsteps Hr.
  apply (get_trajectories_inv _ _ _ Hbound) in Hr
    as (idx & -> & Hidx & Hge & Hmin).
  pose proof (get_trajectories_before_last l steps idx Hsteps Hmin) as Hlt.
  assert (Z.of_nat (length (take idx l)) ≤ total_steps (take idx l)) as Hlen.
  { apply length_le_total_steps. by apply Forall_take. }
  rewrite length_take in *. lia.
Qed.

(** X8: when the summed length of the input is below [2^63], the result
    for a positive request overshoots [steps] by less than the length of its
    last trajectory. *)
Theorem get_trajectories_overshoot l steps r :
  total_steps l < 2 ^ 63 →
  0 < steps →
  _get_trajectories l steps = Ok r →
  ∃ p x, r = p ++ [x] ∧ total_steps r - steps < len x.
Proof.
  intros Hbound Hsteps Hr.
  apply (get_trajectories_inv _ _ _ Hbound) in Hr
    as (idx & -> & Hidx & Hge & Hmin).
  destruct (lookup_lt_is_Some_2 l idx Hidx) as [x Hx].
  exists (take idx l), x. rewrite (take_S_r l idx x Hx). split; [done|].
  pose proof (get_trajectories_before_last l steps idx Hsteps Hmin) as Hlt.
  rewrite total_steps_app. unfold total_steps at 2. csimpl. lia.
Qed.
End selector_more.

(** ** TrajectoryDataset: further properties *)

Section dataset_more.
Context {Traj Rng Path : Type}.
Context `{!Sized Traj, !NumPy, !PyRandom Rng, !TrajStore Path Traj,
         !Logging}.
Implicit Types (self : TrajectoryDataset.t).
Implicit Types (w : TrajectoryDataset.world Traj Rng) (steps : Z).
Implicit Types (data : list Traj) (g : Rng).

Import TrajectoryDataset.

Lemma total_steps_Permutation (l1 l2 : list Traj) :
  l1 ≡ₚ l2 → total_steps l1 = total_steps l2.
Proof.
  unfold total_steps.
  induction 1 as [|t l1 l2 _ IH|t1 t2 l|l1 l2 l3 _ IH1 _ IH2]; csimpl; lia.
Qed.

Lemma total_steps_shuffled g data :
  total_steps (shuffled g data).1 = total_steps data.
Proof. apply total_steps_Permutation, shuffled_perm. Qed.

Lemma fresh_rng_ne w r :
  is_Some (rngs w !! r) → fresh (dom (rngs w)) ≠ r.
Proof.
  intros Hr Heq. apply elem_of_dom in Hr. rewrite <- Heq in Hr.
  by apply is_fresh in Hr.
Qed.

(** X9: construction.  When the collection loads, the new instance holds
    the chosen logger, a new list object with the loaded trajectories and a
    new generator object seeded with [seed]; the objects that existed before
    are untouched.  When loading fails, the error is passed on and the heap
    is as it was. *)
Theorem dataset_init_outcome (path : Path) (seed : Z)
    (custom_logger : option HierarchicalLogger) w :
  match types_load path with
  | Ok data =>
      ∃ self w',
        __init__ path seed custom_logger w = (Ok self, w') ∧
        _logger self = default configure custom_logger ∧
        lists w' !! _trajectories self = Some data ∧
        rngs w' !! rng self = Some (Random seed) ∧
        lists w !! _trajectories self = None ∧
        rngs w !! rng self = None ∧
        (∀ x, is_Some (lists w !! x) → lists w' !! x = lists w !! x) ∧
        (∀ r, is_Some (rngs w !! r) → rngs w' !! r = rngs w !! r)
  | Raise e => __init__ path seed custom_logger w = (Raise e, w)
  end.
Proof.
  unfold __init__, TrajectoryGenerator.__init__,
    TrajectoryGenerator.logger_fset.
  unfold mbind at 1 2 3 4, M_bind, mret, M_ret, lift_res. simpl.
  destruct (types_load path) as [data|e]; simpl; [|done].
  eexists _, _. split; [reflexivity|]. simpl. split_and!.
  - done.
  - apply lookup_insert_eq.
  - apply lookup_insert_eq.
  - apply not_elem_of_dom_1, is_fresh.
  - apply not_elem_of_dom_1, is_fresh.
  - intros x Hx. by rewrite lookup_insert_ne by by apply fresh_list_ne.
  - intros r Hr. by rewrite lookup_insert_ne by by apply fresh_rng_ne.
Qed.

(** X10: what [sample] answers depends on the stored collection only
    through its total: with fewer than [steps] steps stored it raises the
    selector's error, which states the stored total; with a non-empty
    collection of at least [steps] and fewer than [2^63] steps it returns
    trajectories of the collection, none more often than it is stored,
    summing to at least [steps]. *)
Theorem dataset_sample_outcome self steps w data g :
  lists w !! _trajectories self = Some data →
  rngs w !! rng self = Some g →
  (total_steps data < steps →
     (sample self steps w).1
     = Raise (RuntimeError (insufficient_msg steps (total_steps data)))) ∧
  (data ≠ [] → steps ≤ total_steps data → total_steps data < 2 ^ 63 →
     ∃ r, (sample self steps w).1 = Ok r ∧ r ⊆+ data ∧ steps ≤ total_steps r).
Proof.
  intros Hl Hg. rewrite (sample_live self steps w data g Hl Hg). simpl.
  pose proof (shuffled_perm Traj g data) as Hperm.
  pose proof (total_steps_shuffled g data) as Htot.
  destruct (shuffled g data) as [l' g']. simpl in *.
  split.
  - intros Hlt. rewrite get_trajectories_insufficient by lia. by rewrite Htot.
  - intros Hne Hle Hbound.
    destruct (get_trajectories_ok l' steps) as (idx & Hget & _ & Hge & _).
    + lia.
    + intros ->. symmetry in Hperm. by apply Permutation_nil_r in Hperm.
    + lia.
    + exists (take (S idx) l'). split_and!; [done| |done].
      rewrite <- Hperm. apply sublist_submseteq, sublist_take.
Qed.

(** X11: a request that fails still uses up a permutation: the request
    after it is served from the generator state the failed one left. *)
Theorem dataset_failed_sample_advances self steps_big steps w data g :
  lists w !! _trajectories self = Some data →
  rngs w !! rng self = Some g →
  total_steps data < steps_big →
  (samples self [steps_big; steps] w).1
  = Ok [Raise (RuntimeError (insufficient_msg steps_big (total_steps data)));
        _get_trajectories (shuffled (shuffled g data).2 data).1 steps].
Proof.
  intros Hl Hg Hbig.
  rewrite (samples_stream self data [steps_big; steps] w g Hl Hg). simpl.
  pose proof (total_steps_shuffled g data) as Htot.
  destruct (shuffled g data) as [l1 g1]. simpl in *.
  destruct (shuffled g1 data) as [l2 g2]. simpl.
  rewrite get_trajectories_insufficient by lia. by rewrite Htot.
Qed.

(** X12: two generators with generator objects of their own do not
    disturb each other, even over one shared list of trajectories: a
    [sample] on the first leaves the answer of the second as it would have
    been. *)
Theorem dataset_instances_independent self1 self2 steps1 steps2 w
    data1 data2 g1 g2 :
  lists w !! _trajectories self1 = Some data1 →
  rngs w !! rng self1 = Some g1 →
  lists w !! _trajectories self2 = Some data2 →
  rngs w !! rng self2 = Some g2 →
  rng self1 ≠ rng self2 →
  (sample self2 steps2 (sample self1 steps1 w).2).1
  = (sample self2 steps2 w).1.
Proof.
  intros Hl1 Hg1 Hl2 Hg2 Hne.
  rewrite (sample_live self1 steps1 w data1 g1 Hl1 Hg1). simpl.
  rewrite (sample_live self2 steps2 w data2 g2 Hl2 Hg2). simpl.
  erewrite sample_live; [done| |]; simpl.
  - rewrite lookup_insert_ne; [done|]. apply fresh_list_ne. by rewrite Hl2.
  - by rewrite lookup_insert_ne.
Qed.
End dataset_more.

Lemma dataset_sample_outcome_witness :
  TrajectoryDataset.lists Toy.dataset_heap
    !! TrajectoryDataset._trajectories Toy.dataset = Some Toy.stored ∧
  TrajectoryDataset.rngs Toy.dataset_heap
    !! TrajectoryDataset.rng Toy.dataset = Some 0%nat ∧
  total_steps Toy.stored < 12 ∧
  (TrajectoryDataset.sample Toy.dataset 12 Toy.dataset_heap).1
  = Raise (RuntimeError (insufficient_msg 12 (total_steps Toy.stored))).
Proof.
  assert (TrajectoryDataset.lists Toy.dataset_heap
            !! TrajectoryDataset._trajectories Toy.dataset = Some Toy.stored)
    as Hl by reflexivity.
  assert (TrajectoryDataset.rngs Toy.dataset_heap
            !! TrajectoryDataset.rng Toy.dataset = Some 0%nat)
    as Hg by reflexivity.
  assert (total_steps Toy.stored < 12) as Hlt by (vm_compute; reflexivity).
  split_and!; [exact Hl|exact Hg|exact Hlt|].
  exact (proj1 (dataset_sample_outcome Toy.dataset 12 Toy.dataset_heap
                  Toy.stored 0%nat Hl Hg) Hlt).
Defined.

Lemma dataset_failed_sample_advances_witness :
  TrajectoryDataset.lists Toy.dataset_heap
    !! TrajectoryDataset._trajectories Toy.dataset = Some Toy.stored ∧
  TrajectoryDataset.rngs Toy.dataset_heap
    !! TrajectoryDataset.rng Toy.dataset = Some 0%nat ∧
  total_steps Toy.stored < 12 ∧
  (TrajectoryDataset.samples Toy.dataset [12; 6] Toy.dataset_heap).1
  = Ok [Raise (RuntimeError (insufficient_msg 12 (total_steps Toy.stored)));
        _get_trajectories
          (shuffled (shuffled 0%nat Toy.stored).2 Toy.stored).1 6].
Proof.
  assert (TrajectoryDataset.lists Toy.dataset_heap
            !! TrajectoryDataset._trajectories Toy.dataset = Some Toy.stored)
    as Hl by reflexivity.
  assert (TrajectoryDataset.rngs Toy.dataset_heap
            !! TrajectoryDataset.rng Toy.dataset = Some 0%nat)
    as Hg by reflexivity.
  assert (total_steps Toy.stored < 12) as Hlt by (vm_compute; reflexivity).
  split_and!; [exact Hl|exact Hg|exact Hlt|].
  exact (dataset_failed_sample_advances Toy.dataset 12 6 Toy.dataset_heap
           Toy.stored 0%nat Hl Hg Hlt).
Defined.

Lemma dataset_instances_independent_witness :
  TrajectoryDataset.lists Toy.shared_heap
    !! TrajectoryDataset._trajectories Toy.dataset = Some Toy.stored ∧
  TrajectoryDataset.rngs Toy.shared_heap
    !! TrajectoryDataset.rng Toy.dataset = Some 1%nat ∧
  TrajectoryDataset.lists Toy.shared_heap
    !! TrajectoryDataset._trajectories Toy.dataset2 = Some Toy.stored ∧
  TrajectoryDataset.rngs Toy.shared_heap
    !! TrajectoryDataset.rng Toy.dataset2 = Some 3%nat ∧
  TrajectoryDataset.rng Toy.dataset ≠ TrajectoryDataset.rng Toy.dataset2 ∧
  (TrajectoryDataset.sample Toy.dataset2 6
     (TrajectoryDataset.sample Toy.dataset 4 Toy.shared_heap).2).1
  = (TrajectoryDataset.sample Toy.dataset2 6 Toy.shared_heap).1.
Proof.
  assert (TrajectoryDataset.lists Toy.shared_heap
            !! TrajectoryDataset._trajectories Toy.dataset = Some Toy.stored)
    as Hl1 by reflexivity.
  assert (TrajectoryDataset.rngs Toy.shared_heap
            !! TrajectoryDataset.rng Toy.dataset = Some 1%nat)
    as Hg1 by reflexivity.
  assert (TrajectoryDataset.lists Toy.shared_heap
            !! TrajectoryDataset._trajectories Toy.dataset2 = Some Toy.stored)
    as Hl2 by reflexivity.
  assert (TrajectoryDataset.rngs Toy.shared_heap
            !! TrajectoryDataset.rng Toy.dataset2 = Some 3%nat)
    as Hg2 by reflexivity.
  assert (TrajectoryDataset.rng Toy.dataset ≠ TrajectoryDataset.rng Toy.dataset2)
    as Hne by discriminate.
  split_and!; [exact Hl1|exact Hg1|exact Hl2|exact Hg2|exact Hne|].
  exact (dataset_instances_independent Toy.dataset Toy.dataset2 4 6
           Toy.shared_heap Toy.stored Toy.stored 1%nat 3%nat
           Hl1 Hg1 Hl2 Hg2 Hne).
Defined.

(** ** AgentTrainer: further properties *)

Section agent_more.
Context {Traj Kwargs Ext : Type}.
Context `{!Sized Traj, !NumPy, C : !Collaborators Traj Kwargs Ext,
         !Logging}.
Implicit Types (self : AgentTrainer.t) (w : AgentTrainer.world Kwargs Ext).
Implicit Types (steps : Z) (kwargs : Kwargs).

Import AgentTrainer.

(** Without a vectorized environment no instance comes out of
    [__init__]. *)
Lemma init_not_ok (algorithm : handle) (reward : reward_arg)
    (custom_logger : option HierarchicalLogger) w :
  (∀ venv0, get_env algorithm (ext w) ≠ PyVecEnv venv0) →
  (__init__ algorithm reward custom_logger w).1
  = Raise (ValueError env_not_set_msg).
Proof.
  intros Henv.
  unfold __init__, TrajectoryGenerator.__init__, logger_fset. run.
  rewrite get_env_set_logger.
  destruct (get_env algorithm (ext w)) as [| |venv0] eqn:Hget; [done|done|].
  by destruct (Henv venv0).
Qed.

(** X13: what a successful construction has built.  The algorithm had a
    vectorized environment; the instance holds a buffering wrapper directly
    around that environment and the reward wrapper around the buffering
    wrapper, with the reward function given or the [predict] method of the
    reward network given; the algorithm was handed the logger, asked for its
    environment and re-pointed to the reward wrapper, in this order and
    nothing else. *)
Theorem init_builds_wrapper_stack (algorithm : handle) (reward : reward_arg)
    (custom_logger : option HierarchicalLogger) w self w' :
  __init__ algorithm reward custom_logger w = (Ok self, w') →
  ∃ venv0,
    get_env algorithm (ext w) = PyVecEnv venv0 ∧
    AgentTrainer.algorithm self = algorithm ∧
    _logger self = default configure custom_logger ∧
    reward_fn self
    = match reward with IsRewardNet net => Predict net | IsRewardFn f => f end ∧
    buffering_wrapper self = BufferingWrapper venv0 ∧
    venv self = RewardVecEnvWrapper (BufferingWrapper venv0) (reward_fn self) ∧
    ext w'
    = set_env algorithm (venv self)
        (set_logger algorithm (_logger self) (ext w)) ∧
    calls w'
    = calls w ++ [CallSetLogger algorithm (_logger self);
                  CallGetEnv algorithm;
                  CallSetEnv algorithm (venv self)].
Proof.
  intros Hinit.
  destruct (get_env algorithm (ext w)) as [|o|venv0] eqn:Hget.
  - rewrite (surjective_pairing (__init__ _ _ _ _)), init_not_ok in Hinit;
      [done|]. intros venv0. by rewrite Hget.
  - rewrite (surjective_pairing (__init__ _ _ _ _)), init_not_ok in Hinit;
      [done|]. intros venv0. by rewrite Hget.
  - rewrite (init_wraps_env algorithm reward custom_logger w venv0 Hget)
      in Hinit.
    injection Hinit as <- <-. by exists venv0.
Qed.

(** X14: construction succeeds exactly when the algorithm's environment is
    a vectorized environment. *)
Theorem init_succeeds_iff (algorithm : handle) (reward : reward_arg)
    (custom_logger : option HierarchicalLogger) w :
  (∃ self w', __init__ algorithm reward custom_logger w = (Ok self, w')) ↔
  (∃ venv0, get_env algorithm (ext w) = PyVecEnv venv0).
Proof.
  split.
  - intros (self & w' & Hinit).
    destruct (get_env algorithm (ext w)) as [|o|venv0] eqn:Hget;
      [exfalso|exfalso|by exists venv0].
    + rewrite (surjective_pairing (__init__ _ _ _ _)), init_not_ok in Hinit;
        [done|]. intros venv0. by rewrite Hget.
    + rewrite (surjective_pairing (__init__ _ _ _ _)), init_not_ok in Hinit;
        [done|]. intros venv0. by rewrite Hget.
  - intros [venv0 Hget]. eexists _, _.
    apply (init_wraps_env algorithm reward custom_logger w venv0 Hget).
Qed.

(** The calls [train] adds: none, or one [learn]. *)
Lemma train_calls self steps kwargs w :
  calls (train self steps kwargs w).2 = calls w ∨
  calls (train self steps kwargs w).2
  = calls w ++ [CallLearn (algorithm self) steps kwargs].
Proof.
  unfold train. run. case_bool_decide; [by left|right].
  by destruct (learn _ _ _ _).
Qed.

(** The calls [sample] adds. *)
Lemma sample_calls self steps w :
  ∃ new, calls (sample self steps w).2 = calls w ++ new ∧
         Forall (sample_call self) new.
Proof.
  rewrite (sample_unfold self steps w). simpl.
  set (avail := total_steps (pop_trajectories (buffering_wrapper self) (ext w)).1).
  case_bool_decide as Hlt.
  - destruct (generate_trajectories _ _ _ _) as [[out|err] e3]; simpl.
    + eexists. rewrite <- !(assoc_L (++)). split; [reflexivity|].
      repeat constructor; simpl; try done.
      exists (steps - avail). split; [done|lia].
    + eexists. rewrite <- !(assoc_L (++)). split; [reflexivity|].
      repeat constructor; simpl; try done.
      exists (steps - avail). split; [done|lia].
  - eexists. split; [reflexivity|]. by repeat constructor.
Qed.

Lemma sample_call_no_set_env self (new : list (call Kwargs)) :
  Forall (sample_call self) new → set_env_calls new = [].
Proof.
  unfold set_env_calls. induction 1 as [|c new Hc _ IH]; [done|].
  by destruct c.
Qed.

Lemma sample_call_no_set_logger self (new : list (call Kwargs)) a :
  Forall (sample_call self) new → set_logger_calls a new = [].
Proof.
  unfold set_logger_calls. induction 1 as [|c new Hc _ IH]; [done|].
  by destruct c.
Qed.

(** X15: [sample] calls nothing but drains of its own buffering wrapper,
    log lines on its own logger and rollouts with its own algorithm and
    wrapped environment; a rollout it starts is bounded by a positive number
    of timesteps and by no number of episodes.  In particular it never calls
    [learn], [set_env] or [set_logger]. *)
Theorem sample_calls_shape self steps w :
  ∃ new,
    calls (sample self steps w).2 = calls w ++ new ∧
    Forall (sample_call self) new ∧
    set_env_calls new = [] ∧
    (∀ a, set_logger_calls a new = []) ∧
    (∀ a n kw, CallLearn a n kw ∉ new).
Proof.
  destruct (sample_calls self steps w) as (new & Hcalls & Hshape).
  exists new. split_and!; [done|done| | |].
  - by eapply sample_call_no_set_env.
  - intros a. by eapply sample_call_no_set_logger.
  - intros a n kw Hin. rewrite Forall_forall in Hshape.
    by apply Hshape in Hin.
Qed.

(** X16: a result of [sample] starts with the trajectory the collector
    completed last. *)
Theorem sample_most_recent_first self steps w earlier latest r :
  (pop_trajectories (buffering_wrapper self) (ext w)).1 = earlier ++ [latest] →
  (sample self steps w).1 = Ok r →
  head r = Some latest.
Proof.
  intros Hpop Hr. rewrite (sample_unfold self steps w) in Hr. simpl in Hr.
  rewrite Hpop, reverse_snoc in Hr.
  assert (∀ rest, _get_trajectories (latest :: rest) steps = Ok r →
                  head r = Some latest) as Hhead.
  { intros rest (idx & -> & _)%get_trajectories_shape. done. }
  case_bool_decide.
  - destruct (generate_trajectories _ _ _ _) as [[out|err] e3];
      simpl in Hr; [|done].
    by eapply Hhead.
  - by eapply Hhead.
Qed.

(** X17: with nothing to drain and a request for no steps (or a negative
    number), [sample] raises the [ValueError] of the selector after the one
    drain; no rollout is started. *)
Theorem sample_empty_nonpositive self steps w :
  (pop_trajectories (buffering_wrapper self) (ext w)).1 = [] →
  steps ≤ 0 →
  sample self steps w
  = (Raise (ValueError "attempt to get argmax of an empty sequence"),
     World (pop_trajectories (buffering_wrapper self) (ext w)).2
           (calls w ++ [CallPopTrajectories (buffering_wrapper self)])).
Proof.
  intros Hpop Hle. rewrite (sample_unfold self steps w). simpl.
  rewrite Hpop. change (total_steps []) with 0.
  rewrite bool_decide_eq_false_2 by lia.
  by rewrite reverse_nil, get_trajectories_nil.
Qed.

(** X18: [sample] tops up once.  If the drain after the rollout still
    leaves the total below [steps], the selector's error is raised, stating
    [steps] and the total of both drains. *)
Theorem sample_topup_short self steps w :
  let bw := buffering_wrapper self in
  let drained := (pop_trajectories bw (ext w)).1 in
  let e1 := (pop_trajectories bw (ext w)).2 in
  let avail := total_steps drained in
  let rollout :=
    generate_trajectories (algorithm self) (venv self)
      (make_sample_until (Some (steps - avail)) None)
      (log (_logger self) (topup_msg steps avail) e1) in
  let additional := (pop_trajectories bw rollout.2).1 in
  avail < steps → is_ok rollout.1 →
  total_steps additional < steps - avail →
  (sample self steps w).1
  = Raise (RuntimeError
             (insufficient_msg steps (avail + total_steps additional))).
Proof.
  intros bw drained e1 avail rollout additional Hlt Hok Hshort.
  rewrite (sample_unfold self steps w). simpl.
  fold bw drained e1 avail. rewrite bool_decide_eq_true_2 by done.
  change (logger self) with (_logger self). fold rollout.
  destruct (rollout.1) as [out|err] eqn:Hro; [|done]. simpl.
  fold additional.
  rewrite get_trajectories_insufficient;
    rewrite total_steps_app, total_steps_reverse; fold avail; [done|lia].
Qed.
End agent_more.

(** ** Histories of an agent generator: what they keep *)

Section agent_histories.
Context {Traj Kwargs Ext : Type}.
Context `{!Sized Traj, !NumPy, C : !Collaborators Traj Kwargs Ext,
         !Logging}.
Implicit Types (self : AgentTrainer.t) (w : AgentTrainer.world Kwargs Ext).
Implicit Types (o : agent_op Kwargs) (ops : list (agent_op Kwargs)).

Import AgentTrainer.

Lemma agent_step_in_step self0 cs0 self w o :
  in_step self0 cs0 self w →
  in_step self0 cs0 (agent_step self o w).1 (agent_step self o w).2.
Proof.
  intros (Ha & Hr & Hb & Hv & Hlog & Henv).
  destruct o as [steps kwargs|steps|value]; unfold agent_step; cbn [fst snd].
  - assert (set_logger_calls (algorithm self0) (calls (train self steps kwargs w).2)
            = set_logger_calls (algorithm self0) (calls w) ∧
            set_env_calls (calls (train self steps kwargs w).2)
            = set_env_calls (calls w)) as [Hl He].
    { destruct (train_calls self steps kwargs w) as [-> | ->]; [done|].
      unfold set_logger_calls, set_env_calls. rewrite !omap_app. simpl.
      by rewrite !app_nil_r. }
    unfold in_step. rewrite Hl, He. by split_and!.
  - destruct (sample_calls self steps w) as (new & Hcalls & Hnew).
    assert (set_logger_calls (algorithm self0) (calls (sample self steps w).2)
            = set_logger_calls (algorithm self0) (calls w) ∧
            set_env_calls (calls (sample self steps w).2)
            = set_env_calls (calls w)) as [Hl He].
    { rewrite Hcalls. split.
      - unfold set_logger_calls. rewrite omap_app.
        fold (set_logger_calls (algorithm self0) new).
        by rewrite (sample_call_no_set_logger self new), app_nil_r.
      - unfold set_env_calls. rewrite omap_app. fold (set_env_calls new).
        by rewrite (sample_call_no_set_env self new), app_nil_r. }
    unfold in_step. rewrite Hl, He. by split_and!.
  - unfold in_step. simpl. split_and!; try done.
    + unfold set_logger_calls. rewrite omap_app. simpl.
      rewrite Ha, decide_True by done. apply last_snoc.
    + unfold set_env_calls. rewrite omap_app. simpl. by rewrite app_nil_r.
Qed.

Lemma agent_run_in_step self0 cs0 ops : ∀ self w,
  in_step self0 cs0 self w →
  in_step self0 cs0 (agent_run self ops w).1 (agent_run self ops w).2.
Proof.
  induction ops as [|o ops IH]; intros self w Hinv; [done|].
  simpl. pose proof (agent_step_in_step self0 cs0 self w o Hinv) as Hstep.
  destruct (agent_step self o w) as [self1 w1]. by apply IH.
Qed.

(** X19: whatever series of [train], [sample] and logger assignments
    follows a successful construction (failed calls included), the instance
    keeps its algorithm, reward function and both wrappers, the logger last
    handed to the algorithm is the instance's current logger, and the
    algorithm has been re-pointed once only, at construction, to the reward
    wrapper. *)
Theorem agent_history_invariant (alg : handle) (reward : reward_arg)
    (custom_logger : option HierarchicalLogger) w self w0 ops :
  __init__ alg reward custom_logger w = (Ok self, w0) →
  let self' := (agent_run self ops w0).1 in
  let w' := (agent_run self ops w0).2 in
  algorithm self' = alg ∧
  reward_fn self' = reward_fn self ∧
  buffering_wrapper self' = buffering_wrapper self ∧
  venv self' = venv self ∧
  last (set_logger_calls alg (calls w')) = Some (_logger self') ∧
  set_env_calls (calls w') = set_env_calls (calls w) ++ [(alg, venv self)].
Proof.
  intros Hinit self' w'.
  assert (algorithm self = alg ∧
          calls w0 = calls w ++ [CallSetLogger alg (_logger self);
                                 CallGetEnv alg;
                                 CallSetEnv alg (venv self)]) as [Halg Hcalls].
  { destruct (get_env alg (ext w)) as [|o|venv0] eqn:Hget.
    - rewrite (surjective_pairing (__init__ _ _ _ _)), init_not_ok in Hinit;
        [done|]. intros venv0. by rewrite Hget.
    - rewrite (surjective_pairing (__init__ _ _ _ _)), init_not_ok in Hinit;
        [done|]. intros venv0. by rewrite Hget.
    - rewrite (init_wraps_env alg reward custom_logger w venv0 Hget) in Hinit.
      by injection Hinit as <- <-. }
  assert (in_step self (calls w0) self w0) as Hinv.
  { split_and!; try done. rewrite Hcalls. unfold set_logger_calls.
    rewrite omap_app. simpl. rewrite Halg, decide_True by done.
    apply last_snoc. }
  destruct (agent_run_in_step self (calls w0) ops self w0 Hinv)
    as (Ha & Hr & Hb & Hv & Hlog & Henv).
  subst self' w'. split_and!; try done.
  - congruence.
  - by rewrite <- Halg.
  - rewrite Henv, Hcalls. unfold set_env_calls. by rewrite omap_app.
Qed.
End agent_histories.

(** ** The data loader that stops yielding: specification *)

Section loader_spec.
Context {Batch : Type}.
Implicit Types (self : DataLoaderFailsOnSecondIter.t Batch).

Import DataLoaderFailsOnSecondIter.

(** One loop over the loader: two steps of the generator are enough to
    finish it. *)
Lemma for_loop_enough (fuel : nat) self :
  (2 ≤ fuel)%nat →
  for_loop fuel self
  = (if bool_decide (iter_count self < no_yield_after_iter self)
     then [dummy_yield_value self] else [],
     count_up self).
Proof.
  intros Hfuel. destruct fuel as [|[|fuel]]; [lia|lia|].
  unfold for_loop. simpl. by case_bool_decide.
Qed.

(** X20: loops over the loader, one after the other.  Loop number [i]
    (from [0]) yields the dummy value once if [iter_count + i] is below
    [no_yield_after_iter] and yields nothing otherwise; every loop raises
    [iter_count] by one and leaves the other fields alone. *)
Theorem loader_passes (fuel n : nat) self :
  (2 ≤ fuel)%nat →
  (passes fuel n self).1
  = (λ i : nat,
       if bool_decide (iter_count self + Z.of_nat i < no_yield_after_iter self)
       then [dummy_yield_value self] else []) <$> seq 0 n ∧
  iter_count (passes fuel n self).2 = iter_count self + Z.of_nat n ∧
  dummy_yield_value (passes fuel n self).2 = dummy_yield_value self ∧
  no_yield_after_iter (passes fuel n self).2 = no_yield_after_iter self.
Proof.
  intros Hfuel. revert self. induction n as [|n IH]; intros self.
  { simpl. split_and!; [done|lia|done|done]. }
  simpl passes. rewrite for_loop_enough by done.
  specialize (IH (count_up self)) as (Hys & Hc & Hd & Hk).
  destruct (passes fuel n (count_up self)) as [rest self2]. simpl in *.
  split_and!.
  - rewrite Z.add_0_r. f_equal. rewrite Hys, <- fmap_S_seq, <- list_fmap_compose.
    apply list_fmap_ext. intros _ i _. simpl.
    by replace (iter_count self + 1 + Z.of_nat i)
      with (iter_count self + Z.of_nat (S i)) by lia.
  - rewrite Hc. lia.
  - done.
  - done.
Qed.
End loader_spec.

(** ** Further worked instances *)

Lemma get_trajectories_returns_iff_witness :
  total_steps Toy.stored < 2 ^ 63 ∧
  ((∃ r, _get_trajectories Toy.stored 6 = Ok r) ↔
   Toy.stored ≠ [] ∧ 6 ≤ total_steps Toy.stored).
Proof.
  assert (total_steps Toy.stored < 2 ^ 63) as Hbound
    by (vm_compute; reflexivity).
  split; [exact Hbound|].
  exact (get_trajectories_returns_iff Toy.stored 6 Hbound).
Defined.

Lemma get_trajectories_assertion_holds_witness :
  total_steps Toy.stored < 2 ^ 63 ∧
  _get_trajectories Toy.stored 6 ≠ Raise AssertionError.
Proof.
  assert (total_steps Toy.stored < 2 ^ 63) as Hbound
    by (vm_compute; reflexivity).
  split; [exact Hbound|].
  exact (get_trajectories_assertion_holds Toy.stored 6 Hbound).
Defined.

Lemma get_trajectories_nonpositive_witness :
  len (Toy.episode 4 1) < 2 ^ 63 ∧ -3 ≤ 0 ∧
  _get_trajectories (Toy.episode 4 1 :: [Toy.episode 5 1]) (-3)
  = Ok [Toy.episode 4 1].
Proof.
  assert (len (Toy.episode 4 1) < 2 ^ 63) as Hlen by (vm_compute; reflexivity).
  assert (-3 ≤ 0) as Hle by lia.
  split_and!; [exact Hlen|exact Hle|].
  exact (get_trajectories_nonpositive (Toy.episode 4 1) [Toy.episode 5 1] (-3)
           Hlen Hle).
Defined.

Lemma get_trajectories_app_stable_witness :
  Forall (λ t : Toy.traj, len t < 2 ^ 63) [Toy.episode 4 1; Toy.episode 5 1] ∧
  _get_trajectories [Toy.episode 4 1; Toy.episode 5 1] 6
  = Ok [Toy.episode 4 1; Toy.episode 5 1] ∧
  _get_trajectories ([Toy.episode 4 1; Toy.episode 5 1] ++ [Toy.episode 2 1]) 6
  = Ok [Toy.episode 4 1; Toy.episode 5 1].
Proof.
  assert (Forall (λ t : Toy.traj, len t < 2 ^ 63)
            [Toy.episode 4 1; Toy.episode 5 1]) as Hlens
    by (repeat constructor; vm_compute; reflexivity).
  assert (_get_trajectories [Toy.episode 4 1; Toy.episode 5 1] 6
          = Ok [Toy.episode 4 1; Toy.episode 5 1]) as Hget
    by (vm_compute; reflexivity).
  split_and!; [exact Hlens|exact Hget|].
  exact (get_trajectories_app_stable _ [Toy.episode 2 1] 6 _ Hlens Hget).
Defined.

Lemma get_trajectories_idempotent_witness :
  Forall (λ t : Toy.traj, len t < 2 ^ 63) Toy.stored ∧
  _get_trajectories Toy.stored 6 = Ok [Toy.episode 4 1; Toy.episode 5 1] ∧
  _get_trajectories [Toy.episode 4 1; Toy.episode 5 1] 6
  = Ok [Toy.episode 4 1; Toy.episode 5 1].
Proof.
  assert (Forall (λ t : Toy.traj, len t < 2 ^ 63) Toy.stored) as Hlens
    by (repeat constructor; vm_compute; reflexivity).
  assert (_get_trajectories Toy.stored 6
          = Ok [Toy.episode 4 1; Toy.episode 5 1]) as Hget
    by (vm_compute; reflexivity).
  split_and!; [exact Hlens|exact Hget|].
  exact (get_trajectories_idempotent Toy.stored 6 _ Hlens Hget).
Defined.

Lemma get_trajectories_monotone_witness :
  total_steps Toy.stored < 2 ^ 63 ∧ 3 ≤ 6 ∧
  _get_trajectories Toy.stored 3 = Ok [Toy.episode 4 1] ∧
  _get_trajectories Toy.stored 6 = Ok [Toy.episode 4 1; Toy.episode 5 1] ∧
  [Toy.episode 4 1] `prefix_of` [Toy.episode 4 1; Toy.episode 5 1].
Proof.
  assert (total_steps Toy.stored < 2 ^ 63) as Hbound
    by (vm_compute; reflexivity).
  assert (3 ≤ 6) as Hle by lia.
  assert (_get_trajectories Toy.stored 3 = Ok [Toy.episode 4 1]) as H3
    by (vm_compute; reflexivity).
  assert (_get_trajectories Toy.stored 6
          = Ok [Toy.episode 4 1; Toy.episode 5 1]) as H6
    by (vm_compute; reflexivity).
  split_and!; [exact Hbound|exact Hle|exact H3|exact H6|].
  exact (get_trajectories_monotone Toy.stored 3 6 _ _ Hbound Hle H3 H6).
Defined.

Lemma get_trajectories_count_bound_witness :
  total_steps Toy.stored < 2 ^ 63 ∧
  Forall (λ t : Toy.traj, 1 ≤ len t) Toy.stored ∧ 0 < 6 ∧
  _get_trajectories Toy.stored 6 = Ok [Toy.episode 4 1; Toy.episode 5 1] ∧
  Z.of_nat (length [Toy.episode 4 1; Toy.episode 5 1]) ≤ 6.
Proof.
  assert (total_steps Toy.stored < 2 ^ 63) as Hbound
    by (vm_compute; reflexivity).
  assert (Forall (λ t : Toy.traj, 1 ≤ len t) Toy.stored) as Hpos
    by (repeat constructor; vm_compute; discriminate).
  assert (0 < 6) as Hsteps by lia.
  assert (_get_trajectories Toy.stored 6
          = Ok [Toy.episode 4 1; Toy.episode 5 1]) as Hget
    by (vm_compute; reflexivity).
  split_and!; [exact Hbound|exact Hpos|exact Hsteps|exact Hget|].
  exact (get_trajectories_count_bound Toy.stored 6 _ Hbound Hpos Hsteps Hget).
Defined.

Lemma get_trajectories_overshoot_witness :
  total_steps Toy.stored < 2 ^ 63 ∧ 0 < 6 ∧
  _get_trajectories Toy.stored 6 = Ok [Toy.episode 4 1; Toy.episode 5 1] ∧
  ∃ p x, [Toy.episode 4 1; Toy.episode 5 1] = p ++ [x] ∧
         total_steps [Toy.episode 4 1; Toy.episode 5 1] - 6 < len x.
Proof.
  assert (total_steps Toy.stored < 2 ^ 63) as Hbound
    by (vm_compute; reflexivity).
  assert (0 < 6) as Hsteps by lia.
  assert (_get_trajectories Toy.stored 6
          = Ok [Toy.episode 4 1; Toy.episode 5 1]) as Hget
    by (vm_compute; reflexivity).
  split_and!; [exact Hbound|exact Hsteps|exact Hget|].
  exact (get_trajectories_overshoot Toy.stored 6 _ Hbound Hsteps Hget).
Defined.

Lemma init_builds_wrapper_stack_witness :
  ∃ self w',
    AgentTrainer.__init__ 2%positive (IsRewardNet 6%positive)
      (Some 7%positive) Toy.ready_agent = (Ok self, w') ∧
    ∃ venv0,
      get_env 2%positive (AgentTrainer.ext Toy.ready_agent) = PyVecEnv venv0 ∧
      AgentTrainer.algorithm self = 2%positive ∧
      AgentTrainer._logger self = 7%positive ∧
      AgentTrainer.reward_fn self = Predict 6%positive ∧
      AgentTrainer.buffering_wrapper self = BufferingWrapper venv0 ∧
      AgentTrainer.venv self
      = RewardVecEnvWrapper (BufferingWrapper venv0) (AgentTrainer.reward_fn self) ∧
      AgentTrainer.ext w'
      = set_env 2%positive (AgentTrainer.venv self)
          (set_logger 2%positive (AgentTrainer._logger self)
             (AgentTrainer.ext Toy.ready_agent)) ∧
      AgentTrainer.calls w'
      = AgentTrainer.calls Toy.ready_agent
          ++ [AgentTrainer.CallSetLogger 2%positive (AgentTrainer._logger self);
              AgentTrainer.CallGetEnv 2%positive;
              AgentTrainer.CallSetEnv 2%positive (AgentTrainer.venv self)].
Proof.
  eexists _, _. split; [vm_compute; reflexivity|].
  exact (init_builds_wrapper_stack 2%positive (IsRewardNet 6%positive)
           (Some 7%positive) Toy.ready_agent _ _ eq_refl).
Defined.

Lemma sample_most_recent_first_witness :
  (pop_trajectories (AgentTrainer.buffering_wrapper Toy.trainer)
     (AgentTrainer.ext (Toy.with_buffer [Toy.episode 2 1; Toy.episode 3 1]))).1
  = [Toy.episode 2 1] ++ [Toy.episode 3 1] ∧
  (AgentTrainer.sample Toy.trainer 4
     (Toy.with_buffer [Toy.episode 2 1; Toy.episode 3 1])).1
  = Ok [Toy.episode 3 1; Toy.episode 2 1] ∧
  head [Toy.episode 3 1; Toy.episode 2 1] = Some (Toy.episode 3 1).
Proof.
  assert ((pop_trajectories (AgentTrainer.buffering_wrapper Toy.trainer)
             (AgentTrainer.ext (Toy.with_buffer [Toy.episode 2 1; Toy.episode 3 1]))).1
          = [Toy.episode 2 1] ++ [Toy.episode 3 1]) as Hpop by reflexivity.
  assert ((AgentTrainer.sample Toy.trainer 4
             (Toy.with_buffer [Toy.episode 2 1; Toy.episode 3 1])).1
          = Ok [Toy.episode 3 1; Toy.episode 2 1]) as Hr
    by (vm_compute; reflexivity).
  split_and!; [exact Hpop|exact Hr|].
  exact (sample_most_recent_first Toy.trainer 4
           (Toy.with_buffer [Toy.episode 2 1; Toy.episode 3 1])
           [Toy.episode 2 1] (Toy.episode 3 1) _ Hpop Hr).
Defined.

Lemma sample_empty_nonpositive_witness :
  (pop_trajectories (AgentTrainer.buffering_wrapper Toy.trainer)
     (AgentTrainer.ext (Toy.with_buffer []))).1 = [] ∧
  0 ≤ 0 ∧
  AgentTrainer.sample Toy.trainer 0 (Toy.with_buffer [])
  = (Raise (ValueError "attempt to get argmax of an empty sequence"),
     AgentTrainer.World
       (pop_trajectories (AgentTrainer.buffering_wrapper Toy.trainer)
          (AgentTrainer.ext (Toy.with_buffer []))).2
       (AgentTrainer.calls (Toy.with_buffer [])
          ++ [AgentTrainer.CallPopTrajectories
                (AgentTrainer.buffering_wrapper Toy.trainer)])).
Proof.
  assert ((pop_trajectories (AgentTrainer.buffering_wrapper Toy.trainer)
             (AgentTrainer.ext (Toy.with_buffer []))).1 = []) as Hpop
    by reflexivity.
  assert (0 ≤ 0) as Hle by lia.
  split_and!; [exact Hpop|exact Hle|].
  exact (sample_empty_nonpositive Toy.trainer 0 (Toy.with_buffer []) Hpop Hle).
Defined.

(** With a rollout that completes nothing, five buffered steps do not
    become eight. *)
Lemma sample_topup_short_witness :
  (AgentTrainer.sample (C := Toy.stalled) Toy.trainer 8
     (Toy.with_buffer [Toy.episode 2 1; Toy.episode 3 1])).1
  = Raise (RuntimeError "Asked for 8 transitions but only 5 available").
Proof.
  refine (sample_topup_short (C := Toy.stalled) Toy.trainer 8
            (Toy.with_buffer [Toy.episode 2 1; Toy.episode 3 1]) _ _ _).
  - vm_compute. reflexivity.
  - vm_compute. exact I.
  - vm_compute. reflexivity.
Defined.

Lemma agent_history_invariant_witness :
  ∃ self w0,
    AgentTrainer.__init__ 2%positive (IsRewardFn (Callable 4%positive))
      (Some 7%positive) Toy.ready_agent = (Ok self, w0) ∧
    let ops := [OpTrain 10 []; OpSample 4; OpSetLogger 9%positive;
                OpTrain 5 []; OpSample 20] in
    AgentTrainer.algorithm (agent_run self ops w0).1 = 2%positive ∧
    AgentTrainer.reward_fn (agent_run self ops w0).1 = AgentTrainer.reward_fn self ∧
    AgentTrainer.buffering_wrapper (agent_run self ops w0).1
    = AgentTrainer.buffering_wrapper self ∧
    AgentTrainer.venv (agent_run self ops w0).1 = AgentTrainer.venv self ∧
    last (set_logger_calls 2%positive
            (AgentTrainer.calls (agent_run self ops w0).2))
    = Some (AgentTrainer._logger (agent_run self ops w0).1) ∧
    set_env_calls (AgentTrainer.calls (agent_run self ops w0).2)
    = set_env_calls (AgentTrainer.calls Toy.ready_agent)
        ++ [(2%positive, AgentTrainer.venv self)].
Proof.
  eexists _, _. split; [vm_compute; reflexivity|].
  exact (agent_history_invariant 2%positive (IsRewardFn (Callable 4%positive))
           (Some 7%positive) Toy.ready_agent _ _
           [OpTrain 10 []; OpSample 4; OpSetLogger 9%positive;
            OpTrain 5 []; OpSample 20] eq_refl).
Defined.

Lemma loader_passes_witness :
  (2 ≤ 2)%nat ∧
  (DataLoaderFailsOnSecondIter.passes 2 3
     (DataLoaderFailsOnSecondIter.__init__ "batch" 1)).1
  = [["batch"]; []; []] ∧
  DataLoaderFailsOnSecondIter.iter_count
    (DataLoaderFailsOnSecondIter.passes 2 3
       (DataLoaderFailsOnSecondIter.__init__ "batch" 1)).2 = 3.
Proof.
  assert (2 ≤ 2)%nat as Hfuel by lia.
  split; [exact Hfuel|].
  pose proof (loader_passes 2 3 (DataLoaderFailsOnSecondIter.__init__ "batch" 1)
                Hfuel) as (Hys & Hc & _).
  split; [exact Hys|exact Hc].
Defined.

Section agent_suffix.
Context {Traj Kwargs Ext : Type}.
Context `{!Sized Traj, !NumPy, C : !Collaborators Traj Kwargs Ext,
         !Logging}.
Implicit Types (self : AgentTrainer.t) (w : AgentTrainer.world Kwargs Ext).

Import AgentTrainer.

(** X21: when the drained trajectories hold enough steps, the result of
    [sample] is the tail end of the drained list, newest first: reversed, it
    is a suffix of what the collector handed over. *)
Theorem sample_returns_recent_suffix self (steps : Z) w r :
  steps ≤ total_steps (pop_trajectories (buffering_wrapper self) (ext w)).1 →
  (sample self steps w).1 = Ok r →
  reverse r `suffix_of` (pop_trajectories (buffering_wrapper self) (ext w)).1.
Proof.
  intros Hle Hr. rewrite (sample_unfold self steps w) in Hr. simpl in Hr.
  rewrite bool_decide_eq_false_2 in Hr by lia. simpl in Hr.
  apply get_trajectories_sound in Hr as [[k Hk] _].
  exists (reverse k).
  rewrite <- (reverse_involutive (pop_trajectories _ _).1), Hk.
  by rewrite reverse_app.
Qed.
End agent_suffix.

Lemma sample_returns_recent_suffix_witness :
  2 ≤ total_steps
        (pop_trajectories (AgentTrainer.buffering_wrapper Toy.trainer)
           (AgentTrainer.ext
              (Toy.with_buffer [Toy.episode 2 1; Toy.episode 3 1]))).1 ∧
  (AgentTrainer.sample Toy.trainer 2
     (Toy.with_buffer [Toy.episode 2 1; Toy.episode 3 1])).1
  = Ok [Toy.episode 3 1] ∧
  reverse [Toy.episode 3 1] `suffix_of`
    (pop_trajectories (AgentTrainer.buffering_wrapper Toy.trainer)
       (AgentTrainer.ext
          (Toy.with_buffer [Toy.episode 2 1; Toy.episode 3 1]))).1.
Proof.
  assert (2 ≤ total_steps
        (pop_trajectories (AgentTrainer.buffering_wrapper Toy.trainer)
           (AgentTrainer.ext
              (Toy.with_buffer [Toy.episode 2 1; Toy.episode 3 1]))).1) as Hle
    by (vm_compute; discriminate).
  assert ((AgentTrainer.sample Toy.trainer 2
             (Toy.with_buffer [Toy.episode 2 1; Toy.episode 3 1])).1
          = Ok [Toy.episode 3 1]) as Hr by (vm_compute; reflexivity).
  split_and!; [exact Hle|exact Hr|].
  exact (sample_returns_recent_suffix Toy.trainer 2
           (Toy.with_buffer [Toy.episode 2 1; Toy.episode 3 1]) _ Hle Hr).
Defined.
